(** * Calculator (cal.js): the input state machine and its evaluator

    A shallow embedding of [src/cal.js].  The script keeps three variables
    ([current], [history], [consumedResult]), two text nodes of the page
    ([currentEl], [historyEl]) and the pending error timers; every handler is
    a function on that state.  Strings are JavaScript strings (sequences of
    UTF-16 code units), numbers are IEEE 754 binary64 values, and the call
    [Function('"use strict"; return (' + expr + ')')()] is given by a lexer, a
    parser and an evaluator for the part of the ECMAScript expression grammar
    that can be written with the characters the whitelist lets through. *)

From Stdlib Require Import ZArith NArith List Bool Lia String Ascii DecimalN.
From Stdlib Require Import Floats.SpecFloat.
Import ListNotations.
Open Scope Z_scope.

(** ** JavaScript strings *)

Module JSString.

(** A string is its list of UTF-16 code units. *)
Definition jsstring := list N.

(** [js "2+3"] is the string with those (ASCII) characters. *)
Definition js (s : string) : jsstring := map N_of_ascii (list_ascii_of_string s).

Definition chr (s : string) : N :=
  match s with
  | String a _ => N_of_ascii a
  | EmptyString => 0%N
  end.

(** [a === b] on strings. *)
Fixpoint eqb (a b : jsstring) : bool :=
  match a, b with
  | [], [] => true
  | x :: a', y :: b' => N.eqb x y && eqb a' b'
  | _, _ => false
  end.

(** [a <= b] on strings: code units compared from the left. *)
Fixpoint leb (a b : jsstring) : bool :=
  match a, b with
  | [], _ => true
  | _ :: _, [] => false
  | x :: a', y :: b' => N.ltb x y || (N.eqb x y && leb a' b')
  end.

(** [s.includes(String.fromCharCode(c))] *)
Definition includes (c : N) (s : jsstring) : bool := existsb (N.eqb c) s.

(** [s.slice(0, -1)] *)
Definition dropLast (s : jsstring) : jsstring := removelast s.

Definition isDigit (c : N) : bool := (48 <=? c)%N && (c <=? 57)%N.

(** The class [\s] of regular expressions, which is also what [trim]
    removes: WhiteSpace and LineTerminator. *)
Definition isSpace (c : N) : bool :=
  ((9 <=? c)%N && (c <=? 13)%N) || (c =? 32)%N || (c =? 160)%N
  || (c =? 5760)%N || ((8192 <=? c)%N && (c <=? 8202)%N)
  || (c =? 8232)%N || (c =? 8233)%N || (c =? 8239)%N || (c =? 8287)%N
  || (c =? 12288)%N || (c =? 65279)%N.

Fixpoint trimStart (s : jsstring) : jsstring :=
  match s with
  | c :: s' => if isSpace c then trimStart s' else s
  | [] => []
  end.

Definition trim (s : jsstring) : jsstring := rev (trimStart (rev (trimStart s))).

(** [s.replace(/c/g, d)] for single code units [c] and [d]. *)
Definition replaceAll (c d : N) (s : jsstring) : jsstring :=
  map (fun x => if N.eqb x c then d else x) s.

(** [s.replace(/\s+/g, '')] *)
Definition stripSpaces (s : jsstring) : jsstring := filter (fun c => negb (isSpace c)) s.

(** How many times the code unit [c] occurs. *)
Definition count (c : N) (s : jsstring) : nat := List.length (filter (N.eqb c) s).

(** The decimal digits of a natural number, most significant first. *)
Fixpoint ofUint (d : Decimal.uint) : jsstring :=
  match d with
  | Decimal.Nil => []
  | Decimal.D0 d => 48%N :: ofUint d
  | Decimal.D1 d => 49%N :: ofUint d
  | Decimal.D2 d => 50%N :: ofUint d
  | Decimal.D3 d => 51%N :: ofUint d
  | Decimal.D4 d => 52%N :: ofUint d
  | Decimal.D5 d => 53%N :: ofUint d
  | Decimal.D6 d => 54%N :: ofUint d
  | Decimal.D7 d => 55%N :: ofUint d
  | Decimal.D8 d => 56%N :: ofUint d
  | Decimal.D9 d => 57%N :: ofUint d
  end.

Definition decimal (n : N) : jsstring := ofUint (N.to_uint n).

(** The value of a string of decimal digits. *)
Definition digitsValue (s : jsstring) : N :=
  fold_left (fun acc c => (10 * acc + (c - 48))%N) s 0%N.

(** The longest prefix of decimal digits, and what follows it. *)
Fixpoint spanDigits (s : jsstring) : jsstring * jsstring :=
  match s with
  | c :: s' =>
      if isDigit c then let '(d, r) := spanDigits s' in (c :: d, r) else ([], s)
  | [] => ([], [])
  end.

Fixpoint startsWith (p s : jsstring) : bool :=
  match p, s with
  | [], _ => true
  | x :: p', y :: s' => N.eqb x y && startsWith p' s'
  | _ :: _, [] => false
  end.

End JSString.
Export JSString.

(** ** Numbers: IEEE 754 binary64, as ECMAScript's Number type *)

Module Number.

Definition number := spec_float.
Definition prec := 53.
Definition emax := 1024.

Definition NaN : number := S754_nan.
Definition add : number -> number -> number := SFadd prec emax.
Definition subtract : number -> number -> number := SFsub prec emax.
Definition multiply : number -> number -> number := SFmul prec emax.
Definition divide : number -> number -> number := SFdiv prec emax.
Definition unaryMinus : number -> number := SFopp.

(** Number::remainder: the sign of the dividend, truncating quotient; the
    result is always representable, so no rounding takes place. *)
Definition remainder (n d : number) : number :=
  match n, d with
  | S754_nan, _ | _, S754_nan => S754_nan
  | S754_infinity _, _ => S754_nan
  | _, S754_infinity _ => n
  | _, S754_zero _ => S754_nan
  | S754_zero _, _ => n
  | S754_finite sn mn en, S754_finite _ md ed =>
      let e := Z.min en ed in
      match Z.rem (Zpos mn * 2 ^ (en - e)) (Zpos md * 2 ^ (ed - e)) with
      | Zpos r => binary_round prec emax sn r e
      | _ => S754_zero sn
      end
  end.

(** Identity of two Number values (representations are canonical). *)
Definition same (x y : number) : bool :=
  match x, y with
  | S754_nan, S754_nan => true
  | S754_zero a, S754_zero b => Bool.eqb a b
  | S754_infinity a, S754_infinity b => Bool.eqb a b
  | S754_finite a m e, S754_finite b m' e' => Bool.eqb a b && Pos.eqb m m' && Z.eqb e e'
  | _, _ => false
  end.

(** The global [isFinite] on a Number, and [Number.isInteger]. *)
Definition isFinite (x : number) : bool :=
  match x with
  | S754_zero _ | S754_finite _ _ _ => true
  | _ => false
  end.

Definition isInteger (x : number) : bool :=
  match x with
  | S754_zero _ => true
  | S754_finite _ m e => (0 <=? e) || (Zpos m mod 2 ^ (- e) =? 0)
  | _ => false
  end.

(** *** Exact values and rounding *)

(** A positive rational [p / q]. *)
Definition ratio := (positive * positive)%type.

Definition pow10 (j : Z) : positive := Z.to_pos (10 ^ j).

(** The value [m * 2^e] of a finite Number, in lowest terms. *)
Definition exact (m : positive) (e : Z) : ratio :=
  if 0 <=? e then (m * Z.to_pos (2 ^ e), 1)%positive
  else
    let g := Z.gcd (Zpos m) (2 ^ (- e)) in
    (Z.to_pos (Zpos m / g), Z.to_pos (2 ^ (- e) / g)).

(** [r * 10^j] *)
Definition scale10 (r : ratio) (j : Z) : ratio :=
  if 0 <=? j then (fst r * pow10 j, snd r)%positive
  else (fst r, snd r * pow10 (- j))%positive.

Definition floorR (r : ratio) : Z := Zpos (fst r) / Zpos (snd r).

(** The Number value for [p / q]: round to nearest, ties to even. *)
Definition ofRatio (s : bool) (r : ratio) : number :=
  let '(m, e, l) := SFdiv_core_binary prec emax (Zpos (fst r)) 0 (Zpos (snd r)) 0 in
  binary_round_aux prec emax s m e l.

(** The Number value for [mant * 10^exp10], as for a decimal literal. *)
Definition ofDecimal (s : bool) (mant : N) (exp10 : Z) : number :=
  match mant with
  | N0 => S754_zero s
  | Npos p => ofRatio s (scale10 (p, 1%positive) exp10)
  end.

(** The integer part of the magnitude of a Number (0 when not finite). *)
Definition integerPart (x : number) : Z :=
  match x with
  | S754_finite _ m e => floorR (exact m e)
  | _ => 0
  end.

(** *** Number::toString (radix 10) *)

(** The number of decimal digits of [z >= 1]: the least [d >= 1] with
    [z < 10^d].  It is at most the number of binary digits. *)
Fixpoint digitCountFrom (fuel : nat) (d z : Z) : Z :=
  match fuel with
  | O => d
  | S fuel' => if z <? 10 ^ d then d else digitCountFrom fuel' (d + 1) z
  end.

Definition digitCount (z : Z) : Z := digitCountFrom (Z.to_nat (Z.log2 z)) 1 z.

(** The [n] with [10^(n-1) <= r < 10^n]. *)
Definition decimalExponent (r : ratio) : Z :=
  let '(p, q) := r in
  if (q <=? p)%positive then digitCount (Zpos p / Zpos q)
  else
    let d := digitCount (Zpos q / Zpos p) in
    if Zpos q =? Zpos p * 10 ^ (d - 1) then 2 - d else 1 - d.

(** The integer made of the first [j] digits of [r], whose decimal
    exponent is [n0]. *)
Definition lowDigits (r : ratio) (n0 j : Z) : Z := floorR (scale10 r (j - n0)).

(** [roundTrips r s j]: the Number value for [s * 10^j] is the Number of
    exact value [r]. *)
Definition roundTrips (r : ratio) (s j : Z) : bool :=
  same (ofRatio false (scale10 (Z.to_pos s, 1%positive) j)) (ofRatio false r).

(** [k] digits [c] for a value of decimal exponent [n0]; when [c] has
    reached [10^k], the digits are those of [10^(k-1)], one place up. *)
Definition pick (k n0 c : Z) : Z * Z * Z :=
  if c =? 10 ^ k then (10 ^ (k - 1), n0 + 1, k) else (c, n0, k).

(** The integers [s], [n], [k] of Number::toString for a positive finite
    Number of exact value [r]: [k >= 1] as small as possible with
    [10^(k-1) <= s < 10^k] and the Number value for [s * 10^(n-k)] being
    that Number; among several [s], the one closest to [r], the even one
    on a tie.  [n0] is the decimal exponent of [r]; the search starts at
    [k] digits, and 17 digits always suffice. *)
Fixpoint shortest (fuel : nat) (k : Z) (r : ratio) (n0 : Z) : Z * Z * Z :=
  let scaled := scale10 r (k - n0) in
  let lo := floorR scaled in
  let hi := lo + 1 in
  match fuel with
  | O => pick k n0 lo
  | S fuel' =>
      match roundTrips r lo (n0 - k), roundTrips r hi (n0 - k) with
      | true, true =>
          match 2 * Zpos (fst scaled) ?= (lo + hi) * Zpos (snd scaled) with
          | Lt => pick k n0 lo
          | Gt => pick k n0 hi
          | Eq => if Z.even lo then pick k n0 lo else pick k n0 hi
          end
      | true, false => pick k n0 lo
      | false, true => pick k n0 hi
      | false, false => shortest fuel' (k + 1) r n0
      end
  end.

Definition zeros (n : Z) : jsstring := repeat 48%N (Z.to_nat n).

(** The text for [s], [n], [k] (steps 6 to 10 of Number::toString). *)
Definition render (snk : Z * Z * Z) : jsstring :=
  let '(s, n, k) := snk in
  let ds := decimal (Z.to_N s) in
  if (k <=? n) && (n <=? 21) then (ds ++ zeros (n - k))%list
  else if (0 <? n) && (n <=? 21) then
    (firstn (Z.to_nat n) ds ++ js "." ++ skipn (Z.to_nat n) ds)%list
  else if (-6 <? n) && (n <=? 0) then (js "0." ++ zeros (- n) ++ ds)%list
  else
    let e := n - 1 in
    let tail := ((if e <? 0 then js "e-" else js "e+") ++ decimal (Z.to_N (Z.abs e)))%list in
    if k =? 1 then (ds ++ tail)%list
    else (firstn 1 ds ++ js "." ++ skipn 1 ds ++ tail)%list.

Definition toString (x : number) : jsstring :=
  match x with
  | S754_nan => js "NaN"
  | S754_zero _ => js "0"
  | S754_infinity s => ((if s then js "-" else []) ++ js "Infinity")%list
  | S754_finite s m e =>
      let r := exact m e in
      ((if s then js "-" else [])
         ++ render (shortest 17 1 r (decimalExponent r)))%list
  end.

(** *** Number.prototype.toFixed, for [0 <= f <= 100] fraction digits *)

(** The integer [n] for which [n / 10^f] is closest to [r], the larger one
    on a tie: [r * 10^f] rounded half up. *)
Definition fixedInteger (r : ratio) (f : Z) : Z :=
  let sc := scale10 r f in
  (2 * Zpos (fst sc) + Zpos (snd sc)) / (2 * Zpos (snd sc)).

(** The Number nearest to [x] rounded (half up, in magnitude) to [f]
    fraction digits. *)
Definition roundFixed (x : number) (f : Z) : number :=
  match x with
  | S754_finite s m e => ofDecimal s (Z.to_N (fixedInteger (exact m e) f)) (- f)
  | S754_zero _ => S754_zero false
  | _ => x
  end.

Definition toFixed (x : number) (f : Z) : jsstring :=
  match x with
  | S754_finite s m e =>
      let r := exact m e in
      let sign := if s then js "-" else [] in
      if 10 ^ 21 <=? floorR r then (sign ++ toString (S754_finite false m e))%list
      else
        let m0 := decimal (Z.to_N (fixedInteger r f)) in
        if f =? 0 then (sign ++ m0)%list
        else
          let k := Z.of_nat (List.length m0) in
          let m1 := if k <=? f then (zeros (f + 1 - k) ++ m0)%list else m0 in
          let k1 := Z.of_nat (List.length m1) in
          (sign ++ firstn (Z.to_nat (k1 - f)) m1 ++ js "." ++ skipn (Z.to_nat (k1 - f)) m1)%list
  | S754_zero _ =>
      if f =? 0 then js "0" else (js "0." ++ zeros f)%list
  | _ => toString x
  end.

(** *** The global [parseFloat] *)

Definition signOf (s : jsstring) : bool * jsstring :=
  match s with
  | c :: s' =>
      if N.eqb c (chr "-") then (true, s')
      else if N.eqb c (chr "+") then (false, s') else (false, s)
  | [] => (false, [])
  end.

(** The exponent part [e], [e+] or [e-] with digits, when there is one. *)
Definition exponentOf (s : jsstring) : Z :=
  match s with
  | c :: s' =>
      if N.eqb c (chr "e") || N.eqb c (chr "E") then
        let '(neg, s'') := signOf s' in
        let '(ds, _) := spanDigits s'' in
        match ds with
        | [] => 0
        | _ => let v := Z.of_N (digitsValue ds) in if neg then - v else v
        end
      else 0
  | [] => 0
  end.

(** The longest prefix that is a StrDecimalLiteral gives the value; no
    such prefix gives NaN. *)
Definition parseFloat (input : jsstring) : number :=
  let '(neg, s) := signOf (trimStart input) in
  if startsWith (js "Infinity") s then S754_infinity neg
  else
    let '(ip, s1) := spanDigits s in
    let '(fp, s2) :=
      match s1 with
      | c :: s1' => if N.eqb c (chr ".") then spanDigits s1' else ([], s1)
      | [] => ([], [])
      end in
    match (ip ++ fp)%list with
    | [] => NaN
    | ds => ofDecimal neg (digitsValue ds) (exponentOf s2 - Z.of_nat (List.length fp))
    end.

End Number.

(** ** The host: [Function('"use strict"; return (' + expr + ')')()]

    The body is strict-mode code made of one [return] statement.  What
    follows is ECMAScript's lexical grammar, expression grammar and
    evaluation for source text over the characters [0-9 + - * / ( ) . %],
    the only ones [safeEval] lets through.  Outside that alphabet, and for
    the operator [**] (whose result ECMAScript leaves
    implementation-approximated), the model gives no answer ([None]). *)

Module Host.
Import Number.

Inductive exception :=
  | Error (message : string)      (* [new Error(message)], thrown by the script *)
  | SyntaxError                   (* thrown by [Function] when the body does not parse *)
  | TypeError.                    (* thrown when a non-function is called *)

Inductive completion (A : Type) :=
  | Returns (a : A)
  | Throws (e : exception).
Arguments Returns {A} a.
Arguments Throws {A} e.

(** The values an expression of this fragment can have: a Number, or a
    value that is not a Number, namely a RegExp object (from a regular
    expression literal) or a string obtained by [+] from one.  The text of
    such a string contains the [/] of the literal, so its ToNumber is NaN,
    as is that of the object. *)
Inductive value :=
  | VNumber (x : number)
  | VNotNumber.

Definition toNumber (v : value) : number :=
  match v with
  | VNumber x => x
  | VNotNumber => NaN
  end.

(** *** Lexical grammar *)

Inductive token :=
  | TNum (x : number)
  | TRegExp
  | TLParen | TRParen
  | TDot | TEllipsis
  | TPlus | TMinus | TStar | TSlash | TPercent
  | TStarStar | TPlusPlus | TMinusMinus.

(** The lexer's place in the input.  [operand] tells whether the previous
    token ended an operand, which decides between the division sign and
    the start of a regular expression literal. *)
Inductive mode :=
  | Ready (operand : bool)
  | InInt (ds : jsstring)
  | InFrac (ip fp : jsstring)
  | AfterDot | AfterDotDot
  | AfterPlus | AfterMinus | AfterStar
  | AfterSlash (operand : bool)
  | InBlock (star operand : bool)       (* inside [/* ... */] *)
  | InLine                              (* inside [// ...], up to the end *)
  | InRegExp (body : jsstring)
  | InFlags (body : jsstring).

Definition inAlphabet (c : N) : bool :=
  isDigit c || existsb (N.eqb c) (js "+-*/().%").

(** A pattern over this alphabet is atoms (a character, [.], a group)
    each followed by at most one quantifier [*] or [+]. *)
Fixpoint validPattern (depth : nat) (quantifiable : bool) (body : jsstring) : bool :=
  match body with
  | [] => Nat.eqb depth 0
  | c :: body' =>
      if N.eqb c (chr "(") then validPattern (S depth) false body'
      else if N.eqb c (chr ")") then
        match depth with
        | O => false
        | S d => validPattern d true body'
        end
      else if N.eqb c (chr "*") || N.eqb c (chr "+") then
        quantifiable && validPattern depth false body'
      else validPattern depth true body'
  end.

Definition numericLiteral (ip fp : jsstring) : token :=
  TNum (ofDecimal false (digitsValue (ip ++ fp)) (- Z.of_nat (List.length fp))).

(** A character at the start of a token. *)
Definition start (operand : bool) (c : N) : option (list token * mode) :=
  if isDigit c then Some ([], InInt [c])
  else if N.eqb c (chr ".") then Some ([], AfterDot)
  else if N.eqb c (chr "+") then Some ([], AfterPlus)
  else if N.eqb c (chr "-") then Some ([], AfterMinus)
  else if N.eqb c (chr "*") then Some ([], AfterStar)
  else if N.eqb c (chr "/") then Some ([], AfterSlash operand)
  else if N.eqb c (chr "%") then Some ([TPercent], Ready false)
  else if N.eqb c (chr "(") then Some ([TLParen], Ready false)
  else if N.eqb c (chr ")") then Some ([TRParen], Ready true)
  else None.

Definition emit (ts : list token) (r : option (list token * mode)) :=
  match r with
  | Some (ts', m) => Some ((ts ++ ts')%list, m)
  | None => None
  end.

(** One character: the tokens completed by it and the new place; [None]
    is a SyntaxError.  Tokens are the longest possible. *)
Definition lexStep (m : mode) (c : N) : option (list token * mode) :=
  match m with
  | Ready operand => start operand c
  | InInt ds =>
      if isDigit c then
        (* strict mode: no legacy octal or octal-like literal *)
        if JSString.eqb ds (js "0") then None else Some ([], InInt (ds ++ [c])%list)
      else if N.eqb c (chr ".") then Some ([], InFrac ds [])
      else emit [numericLiteral ds []] (start true c)
  | InFrac ip fp =>
      if isDigit c then Some ([], InFrac ip (fp ++ [c])%list)
      else emit [numericLiteral ip fp] (start true c)
  | AfterDot =>
      if isDigit c then Some ([], InFrac [] [c])
      else if N.eqb c (chr ".") then Some ([], AfterDotDot)
      else emit [TDot] (start false c)
  | AfterDotDot =>
      if N.eqb c (chr ".") then Some ([TEllipsis], Ready false)
      else if isDigit c then Some ([TDot], InFrac [] [c])
      else emit [TDot; TDot] (start false c)
  | AfterPlus =>
      if N.eqb c (chr "+") then Some ([TPlusPlus], Ready false)
      else emit [TPlus] (start false c)
  | AfterMinus =>
      if N.eqb c (chr "-") then Some ([TMinusMinus], Ready false)
      else emit [TMinus] (start false c)
  | AfterStar =>
      if N.eqb c (chr "*") then Some ([TStarStar], Ready false)
      else emit [TStar] (start false c)
  | AfterSlash operand =>
      if N.eqb c (chr "*") then Some ([], InBlock false operand)
      else if N.eqb c (chr "/") then Some ([], InLine)
      else if operand then emit [TSlash] (start false c)
      else Some ([], InRegExp [c])
  | InBlock star operand =>
      if star && N.eqb c (chr "/") then Some ([], Ready operand)
      else Some ([], InBlock (N.eqb c (chr "*")) operand)
  | InLine => Some ([], InLine)
  | InRegExp body =>
      if N.eqb c (chr "/") then Some ([], InFlags body)
      else Some ([], InRegExp (body ++ [c])%list)
  | InFlags body =>
      (* a digit here would be a flag, and no digit is a valid flag *)
      if isDigit c || negb (validPattern 0 false body) then None
      else emit [TRegExp] (start true c)
  end.

(** The end of the source text. *)
Definition lexEnd (m : mode) : option (list token) :=
  match m with
  | Ready _ | InLine => Some []
  | InInt ds => Some [numericLiteral ds []]
  | InFrac ip fp => Some [numericLiteral ip fp]
  | AfterDot => Some [TDot]
  | AfterDotDot => Some [TDot; TDot]
  | AfterPlus => Some [TPlus]
  | AfterMinus => Some [TMinus]
  | AfterStar => Some [TStar]
  | AfterSlash operand => if operand then Some [TSlash] else None
  | InBlock _ _ | InRegExp _ => None
  | InFlags body => if validPattern 0 false body then Some [TRegExp] else None
  end.

Fixpoint lex (m : mode) (src : jsstring) : option (list token) :=
  match src with
  | [] => lexEnd m
  | c :: src' =>
      match lexStep m c with
      | Some (ts, m') =>
          match lex m' src' with
          | Some ts' => Some (ts ++ ts')%list
          | None => None
          end
      | None => None
      end
  end.

(** *** Expressions *)

Inductive binop := Add | Sub | Mul | Div | Rem | Exp.

Inductive expr :=
  | Num (x : number)
  | RegExpLit
  | Plus (e : expr)
  | Minus (e : expr)
  | Bin (op : binop) (l r : expr)
  | Call (callee : expr)                      (* [f()] *)
  | CallWith (callee argument : expr).        (* [f(a)] and [f(...a)] *)

(** The parser keeps the operands read so far and the operators and open
    parentheses still waiting for their right-hand side. *)
Inductive frame :=
  | FUnary (minus : bool)
  | FBin (op : binop)
  | FParen                  (* a parenthesised expression *)
  | FCall (spread : bool).  (* the arguments of a call *)

(** Where the parser is: before an operand ([justOpened] right after the
    parenthesis of a call) or after one. *)
Inductive position :=
  | Prefix (justOpened : bool)
  | Infix.

Record parser := {
  operands : list expr;
  frames : list frame;
  pos : position
}.

Definition precedence (op : binop) : nat :=
  match op with
  | Add | Sub => 1
  | Mul | Div | Rem => 2
  | Exp => 4
  end.

(** Complete the pending unary operators and the binary operators that
    bind at least as tightly as [level]. *)
Fixpoint reduce (level : nat) (fs : list frame) (es : list expr)
  : option (list frame * list expr) :=
  match fs with
  | FUnary minus :: fs' =>
      match es with
      | e :: es' => reduce level fs' ((if minus then Minus e else Plus e) :: es')
      | [] => None
      end
  | FBin op :: fs' =>
      if (level <=? precedence op)%nat then
        match es with
        | r :: l :: es' => reduce level fs' (Bin op l r :: es')
        | _ => None
        end
      else Some (fs, es)
  | _ => Some (fs, es)
  end.

Definition binary (op : binop) (p : parser) : option parser :=
  match pos p with
  | Infix =>
      match reduce (precedence op) (frames p) (operands p) with
      | Some (fs, es) => Some {| operands := es; frames := FBin op :: fs; pos := Prefix false |}
      | None => None
      end
  | Prefix _ => None
  end.

Definition operand (e : expr) (p : parser) : option parser :=
  match pos p with
  | Prefix _ => Some {| operands := e :: operands p; frames := frames p; pos := Infix |}
  | Infix => None
  end.

(** [+] and [-] are unary before an operand and binary after one. *)
Definition sign (minus : bool) (p : parser) : option parser :=
  match pos p with
  | Prefix _ =>
      Some {| operands := operands p; frames := FUnary minus :: frames p; pos := Prefix false |}
  | Infix => binary (if minus then Sub else Add) p
  end.

(** One token; [None] is a SyntaxError. *)
Definition parseStep (p : parser) (t : token) : option parser :=
  match t with
  | TNum x => operand (Num x) p
  | TRegExp => operand RegExpLit p
  | TPlus => sign false p
  | TMinus => sign true p
  | TStar => binary Mul p
  | TSlash => binary Div p
  | TPercent => binary Rem p
  | TStarStar =>
      (* right-associative, and its left operand is not a unary expression *)
      match pos p, frames p with
      | Infix, FUnary _ :: _ => None
      | Infix, fs => Some {| operands := operands p; frames := FBin Exp :: fs; pos := Prefix false |}
      | Prefix _, _ => None
      end
  | TLParen =>
      match pos p with
      | Prefix _ =>
          Some {| operands := operands p; frames := FParen :: frames p; pos := Prefix false |}
      | Infix =>
          Some {| operands := operands p; frames := FCall false :: frames p; pos := Prefix true |}
      end
  | TEllipsis =>
      match pos p, frames p with
      | Prefix true, FCall false :: fs =>
          Some {| operands := operands p; frames := FCall true :: fs; pos := Prefix false |}
      | _, _ => None
      end
  | TRParen =>
      match pos p with
      | Infix =>
          match reduce 0 (frames p) (operands p) with
          | Some (FParen :: fs, es) => Some {| operands := es; frames := fs; pos := Infix |}
          | Some (FCall _ :: fs, a :: f :: es) =>
              Some {| operands := CallWith f a :: es; frames := fs; pos := Infix |}
          | _ => None
          end
      | Prefix true =>
          match frames p, operands p with
          | FCall false :: fs, f :: es =>
              Some {| operands := Call f :: es; frames := fs; pos := Infix |}
          | _, _ => None
          end
      | Prefix false => None
      end
  (* member access needs a name, and [++], [--] a variable to update *)
  | TDot | TPlusPlus | TMinusMinus => None
  end.

Fixpoint parseTokens (p : parser) (ts : list token) : option parser :=
  match ts with
  | [] => Some p
  | t :: ts' =>
      match parseStep p t with
      | Some p' => parseTokens p' ts'
      | None => None
      end
  end.

(** The Expression of [return Expression], up to the end of the body. *)
Definition parse (ts : list token) : option expr :=
  match parseTokens {| operands := []; frames := []; pos := Prefix false |} ts with
  | Some p =>
      match pos p, reduce 0 (frames p) (operands p) with
      | Infix, Some ([], [e]) => Some e
      | _, _ => None
      end
  | None => None
  end.

(** *** Evaluation *)

Definition bind {A B} (c : option (completion A)) (k : A -> option (completion B))
  : option (completion B) :=
  match c with
  | Some (Returns a) => k a
  | Some (Throws e) => Some (Throws e)
  | None => None
  end.

Definition arithmetic (op : binop) (l r : value) : option (completion value) :=
  match op with
  | Add =>
      match l, r with
      | VNumber x, VNumber y => Some (Returns (VNumber (add x y)))
      | _, _ => Some (Returns VNotNumber)       (* string concatenation *)
      end
  | Sub => Some (Returns (VNumber (subtract (toNumber l) (toNumber r))))
  | Mul => Some (Returns (VNumber (multiply (toNumber l) (toNumber r))))
  | Div => Some (Returns (VNumber (divide (toNumber l) (toNumber r))))
  | Rem => Some (Returns (VNumber (remainder (toNumber l) (toNumber r))))
  | Exp => None                                 (* implementation-approximated *)
  end.

Fixpoint eval (e : expr) : option (completion value) :=
  match e with
  | Num x => Some (Returns (VNumber x))
  | RegExpLit => Some (Returns VNotNumber)
  | Plus e1 => bind (eval e1) (fun v => Some (Returns (VNumber (toNumber v))))
  | Minus e1 => bind (eval e1) (fun v => Some (Returns (VNumber (unaryMinus (toNumber v)))))
  | Bin op l r => bind (eval l) (fun a => bind (eval r) (fun b => arithmetic op a b))
  | Call f => bind (eval f) (fun _ => Some (Throws TypeError))
  | CallWith f a =>
      bind (eval f) (fun _ => bind (eval a) (fun _ => Some (Throws TypeError)))
  end.

(** The body [return <src>] is compiled, then run. *)
Definition returnStatement (src : jsstring) : option (completion value) :=
  if forallb inAlphabet src then
    match lex (Ready false) src with
    | Some ts =>
        match parse ts with
        | Some e => eval e
        | None => Some (Throws SyntaxError)
        end
    | None => Some (Throws SyntaxError)
    end
  else None.

(** [Function('"use strict"; return (' + expr + ')')()] *)
Definition callFunction (expr : jsstring) : option (completion value) :=
  returnStatement (js "(" ++ expr ++ js ")")%list.

End Host.

(** ** The calculator *)

Module Calculator.
Import Number Host.

(** The script's variables, the text shown by the two display elements and
    the number of [setTimeout(..., 700)] callbacks of [showError] that have
    not run yet.  (Animations and console output are left out.) *)
Record calculator := {
  current : jsstring;
  history : jsstring;
  consumedResult : bool;
  currentEl : jsstring;       (* currentEl.textContent *)
  historyEl : jsstring;       (* historyEl.textContent *)
  errorTimers : nat
}.

(** *** Utilities *)

(** The multiplication sign (U+00D7), the division sign (U+00F7) and the
    minus sign (U+2212) become [*], [/] and [-]; then [trim]. *)
Definition normalizeVisual (s : jsstring) : jsstring :=
  trim (replaceAll 8722 (chr "-") (replaceAll 247 (chr "/") (replaceAll 215 (chr "*") s))).

(** The class [[0-9+\-*/().%]]. *)
Definition allowedChar (c : N) : bool :=
  isDigit c || existsb (N.eqb c) (js "+-*/().%").

(** The class [[+\-*/%]]. *)
Definition isOperator (c : N) : bool := existsb (N.eqb c) (js "+-*/%").

(** [/[^0-9+\-*/().%]/.test(expr)] *)
Definition hasInvalidChar (expr : jsstring) : bool :=
  existsb (fun c => negb (allowedChar c)) expr.

(** [/([+\-*/%]{2,})/.test(expr)]: two operator characters in a row. *)
Fixpoint hasOperatorRun (expr : jsstring) : bool :=
  match expr with
  | c :: ((d :: _) as rest) => (isOperator c && isOperator d) || hasOperatorRun rest
  | _ => false
  end.

(** [expr] contains the two characters [p]. *)
Fixpoint contains2 (p q : N) (expr : jsstring) : bool :=
  match expr with
  | c :: ((d :: _) as rest) => (N.eqb c p && N.eqb d q) || contains2 p q rest
  | _ => false
  end.

(** [/(\(\-)|(^\-)/.test(expr)]: a "(-" somewhere, or "-" at the start. *)
Definition hasUnaryMinus (expr : jsstring) : bool :=
  contains2 (chr "(") (chr "-") expr || startsWith (js "-") expr.

(** [/[+\-*/%]$/.test(s)] *)
Definition endsWithOperator (s : jsstring) : bool :=
  match rev s with
  | c :: _ => isOperator c
  | [] => false
  end.

(** *** Safe evaluator *)

(** [safeEval], with the global [Function] it calls at the end as a
    parameter [host]. *)
Definition safeEvalWith (host : jsstring -> option (completion value)) (expr : jsstring)
  : option (completion value) :=
  let expr := normalizeVisual expr in
  let expr := stripSpaces expr in
  if hasInvalidChar expr then Some (Throws (Error "Invalid characters in expression"))
  else if hasOperatorRun expr && negb (hasUnaryMinus expr) then
    Some (Throws (Error "Malformed expression"))
  else if (180 <? List.length expr)%nat then Some (Throws (Error "Expression too long"))
  else host expr.

Definition safeEval : jsstring -> option (completion value) := safeEvalWith callFunction.

(** *** UI helpers *)

Definition refreshDisplay (st : calculator) : calculator :=
  {| current := current st; history := history st; consumedResult := consumedResult st;
     currentEl := current st; historyEl := history st; errorTimers := errorTimers st |}.

(** "Err" is shown at once; the reset of [current] waits for the timer. *)
Definition showError (st : calculator) : calculator :=
  {| current := current st; history := history st; consumedResult := consumedResult st;
     currentEl := js "Err"; historyEl := historyEl st; errorTimers := S (errorTimers st) |}.

(** The callback [() => { current = '0'; refreshDisplay(); }] of one
    pending timer. *)
Definition errorTimeout (st : calculator) : option calculator :=
  match errorTimers st with
  | O => None
  | S n =>
      Some (refreshDisplay
              {| current := js "0"; history := history st; consumedResult := consumedResult st;
                 currentEl := currentEl st; historyEl := historyEl st; errorTimers := n |})
  end.

(** The assignments [current = c], [history = h], [consumedResult = b]. *)
Definition setCurrent (c : jsstring) (st : calculator) : calculator :=
  {| current := c; history := history st; consumedResult := consumedResult st;
     currentEl := currentEl st; historyEl := historyEl st; errorTimers := errorTimers st |}.

Definition setHistory (h : jsstring) (st : calculator) : calculator :=
  {| current := current st; history := h; consumedResult := consumedResult st;
     currentEl := currentEl st; historyEl := historyEl st; errorTimers := errorTimers st |}.

Definition setConsumedResult (b : bool) (st : calculator) : calculator :=
  {| current := current st; history := history st; consumedResult := b;
     currentEl := currentEl st; historyEl := historyEl st; errorTimers := errorTimers st |}.

(** *** Core actions *)

Definition appendDigit (d : jsstring) (st : calculator) : calculator :=
  if consumedResult st then
    refreshDisplay
      (setConsumedResult false
         (setCurrent (if JSString.eqb d (js ".") then js "0." else d) st))
  else if JSString.eqb (current st) (js "0") && negb (JSString.eqb d (js ".")) then
    refreshDisplay (setCurrent d st)
  else if JSString.eqb d (js ".") && includes (chr ".") (current st) then st
  else refreshDisplay (setCurrent (current st ++ d)%list st).

Definition applyOperator (op : jsstring) (st : calculator) : calculator :=
  if consumedResult st then
    refreshDisplay
      (setCurrent (js "0") (setConsumedResult false (setHistory (current st ++ op)%list st)))
  else
    refreshDisplay
      (setCurrent (js "0")
         (if endsWithOperator (history st) then
            setHistory (dropLast (history st) ++ op)%list st
          else setHistory (history st ++ current st ++ op)%list st)).

Definition hundred : number := ofDecimal false 100 0.

(** The [try] block of [doPercent]. *)
Definition percentBody (st : calculator) : option (completion calculator) :=
  bind (safeEval (current st)) (fun val =>
    Some (Returns (refreshDisplay
      (setCurrent (toString (divide (toNumber val) hundred)) st)))).

Definition doPercent (st : calculator) : option calculator :=
  match percentBody st with
  | Some (Returns st') => Some st'
  | Some (Throws _) => Some (showError st)
  | None => None
  end.

Definition backspace (st : calculator) : calculator :=
  if consumedResult st then
    refreshDisplay (setConsumedResult false (setCurrent (js "0") st))
  else
    refreshDisplay
      (setCurrent
         (if (List.length (current st) <=? 1)%nat then js "0" else dropLast (current st)) st).

Definition clearAll (st : calculator) : calculator :=
  refreshDisplay (setConsumedResult false (setHistory [] (setCurrent (js "0") st))).

(** [Number.isInteger(result) ? String(result)
      : String(parseFloat(result.toFixed(10)).toString())] *)
Definition formatResult (result : number) : jsstring :=
  if isInteger result then toString result
  else toString (parseFloat (toFixed result 10)).

(** The [try] block of [evaluateExpression]; nothing is assigned before
    the last point where it can throw. *)
Definition evaluateBody (st : calculator) : option (completion calculator) :=
  let expr := normalizeVisual (history st ++ current st)%list in
  match expr with
  | [] => Some (Returns st)
  | _ =>
      bind (safeEval expr) (fun result =>
        if negb (isFinite (toNumber result)) then Some (Throws (Error "Result not finite"))
        else
          Some (Returns (refreshDisplay
            (setConsumedResult true
               (setCurrent (formatResult (toNumber result))
                  (setHistory (expr ++ js " =")%list st))))))
  end.

Definition evaluateExpression (st : calculator) : option calculator :=
  match evaluateBody st with
  | Some (Returns st') => Some st'
  | Some (Throws _) => Some (showError st)
  | None => None
  end.

(** What the [catch] of [evaluateExpression] can receive. *)
Definition evaluationErrors : list exception :=
  [ Error "Invalid characters in expression"; Error "Malformed expression";
    Error "Expression too long"; Error "Result not finite"; SyntaxError; TypeError ].

(** *** Events *)

Inductive action :=
  | Digit (d : jsstring)
  | Operator (op : jsstring)
  | Percent
  | Back
  | Clear
  | Equals
  | ErrorTimeout.

(** The [keydown] listener: which action a key starts, if any. *)
Definition keydown (key : jsstring) : option action :=
  if (JSString.leb (js "0") key && JSString.leb key (js "9")) || JSString.eqb key (js ".")
  then Some (Digit key)
  else if JSString.eqb key (js "Enter") || JSString.eqb key (js "=") then Some Equals
  else if JSString.eqb key (js "Backspace") then Some Back
  else if JSString.eqb key (js "Escape") then Some Clear
  else if existsb (JSString.eqb key) [js "+"; js "-"; js "*"; js "/"] then Some (Operator key)
  else if JSString.eqb key (js "%") then Some Percent
  else None.

Definition step (a : action) (st : calculator) : option calculator :=
  match a with
  | Digit d => Some (appendDigit d st)
  | Operator op => Some (applyOperator op st)
  | Percent => doPercent st
  | Back => Some (backspace st)
  | Clear => Some (clearAll st)
  | Equals => evaluateExpression st
  | ErrorTimeout => errorTimeout st
  end.

(** The state after the initial render. *)
Definition initial : calculator :=
  {| current := js "0"; history := []; consumedResult := false;
     currentEl := js "0"; historyEl := []; errorTimers := 0 |}.

(** A digit key or the decimal point; one of the four operator keys. *)
Definition isDigitInput (d : jsstring) : Prop :=
  d = js "." \/ exists c, d = [c] /\ isDigit c = true.

Definition isOperatorInput (op : jsstring) : Prop :=
  In op [js "+"; js "-"; js "*"; js "/"].

Definition validAction (a : action) : Prop :=
  match a with
  | Digit d => isDigitInput d
  | Operator op => isOperatorInput op
  | _ => True
  end.

(** The states the page can be in. *)
Inductive reachable : calculator -> Prop :=
  | reachable_initial : reachable initial
  | reachable_step a st st' :
      reachable st -> validAction a -> step a st = Some st' -> reachable st'.

(** A run of events. *)
Fixpoint run (acts : list action) (st : calculator) : option calculator :=
  match acts with
  | [] => Some st
  | a :: acts' =>
      match step a st with
      | Some st' => run acts' st'
      | None => None
      end
  end.

(** A run of digit inputs. *)
Definition appendDigits (ds : list jsstring) (st : calculator) : calculator :=
  fold_left (fun s d => appendDigit d s) ds st.

End Calculator.


(** ** The page: buttons and keys *)

Module Page.
Import Calculator.

(** What the click listener reads from a button: its [data-action] and
    [data-value] attributes (absent or present), its text and its classes. *)
Record button := {
  dataAction : option jsstring;     (* btn.dataset.action *)
  dataValue : option jsstring;      (* btn.dataset.value *)
  textContent : jsstring;
  classList : list jsstring
}.

(** Prefer the [data-value] attribute; fall back to the trimmed text. *)
Definition resolveButtonValue (btn : button) : jsstring :=
  let raw :=
    match dataValue btn with
    | Some v => if JSString.eqb v [] then trim (textContent btn) else v
    | None => trim (textContent btn)
    end in
  normalizeVisual raw.

(** [/^[0-9.]$/.test(v)] and [/^[+\-*/%]$/.test(v)] *)
Definition looksNumeric (v : jsstring) : bool :=
  match v with
  | [c] => isDigit c || N.eqb c (chr ".")
  | _ => false
  end.

Definition looksOperator (v : jsstring) : bool :=
  match v with
  | [c] => isOperator c
  | _ => false
  end.

(** [btn.classList.contains(name)] *)
Definition hasClass (name : jsstring) (btn : button) : bool :=
  existsb (JSString.eqb name) (classList btn).

(** [btn.dataset.action || null]: an empty attribute counts as absent. *)
Definition actionOf (btn : button) : option jsstring :=
  match dataAction btn with
  | Some a => if JSString.eqb a [] then None else Some a
  | None => None
  end.

(** [action === name] *)
Definition actionIs (action : option jsstring) (name : jsstring) : bool :=
  match action with
  | Some a => JSString.eqb a name
  | None => false
  end.

(** The click listener: which action a button starts, if any. *)
Definition click (btn : button) : option action :=
  let action := actionOf btn in
  let v := resolveButtonValue btn in
  if actionIs action (js "clear") then Some Clear
  else if actionIs action (js "back") then Some Back
  else if actionIs action (js "percent") then Some Percent
  else if actionIs action (js "equals") then Some Equals
  else if hasClass (js "num") btn then Some (Digit v)
  else if hasClass (js "op") btn then Some (Operator v)
  else if looksNumeric v then Some (Digit v)
  else if looksOperator v then Some (Operator v)
  else None.

(** An event that starts no action leaves the state as it is. *)
Definition dispatch (a : option action) (st : calculator) : option calculator :=
  match a with
  | Some a => step a st
  | None => Some st
  end.

Definition onClick (btn : button) : calculator -> option calculator := dispatch (click btn).

Definition onKeydown (key : jsstring) : calculator -> option calculator := dispatch (keydown key).

End Page.
(** * Properties *)

Import Number Host Calculator.

(** ** Auxiliary facts on strings and on the checks of [safeEval] *)

Lemma endsWithOperator_snoc (h : jsstring) (c : N) :
  isOperator c = true -> endsWithOperator (h ++ [c]) = true.
Proof.
  intros Hc. unfold endsWithOperator. rewrite rev_app_distr. simpl. exact Hc.
Qed.

Lemma dropLast_snoc (h : jsstring) (c : N) : dropLast (h ++ [c]) = h.
Proof. unfold dropLast. apply removelast_last. Qed.

Lemma isOperatorInput_char (op : jsstring) :
  isOperatorInput op -> exists c, op = [c] /\ isOperator c = true.
Proof.
  unfold isOperatorInput. simpl.
  intros [H | [H | [H | [H | []]]]]; subst op; eexists; split; reflexivity.
Qed.

(** What the three regular expression tests say, in terms of substrings. *)
Lemma hasOperatorRun_spec (expr : jsstring) :
  hasOperatorRun expr = true
  <-> exists a c d b, expr = (a ++ c :: d :: b)%list
        /\ isOperator c = true /\ isOperator d = true.
Proof.
  induction expr as [| c expr IH].
  - split; [discriminate |]. intros (a & x & y & b & H & _). now destruct a.
  - destruct expr as [| d expr].
    + split; [discriminate |]. intros (a & x & y & b & H & _).
      destruct a as [| ? [| ? ?]]; discriminate.
    + cbn [hasOperatorRun]. rewrite orb_true_iff, andb_true_iff, IH. split.
      * intros [[Hc Hd] | (a & x & y & b & H & Hx & Hy)].
        -- now exists [], c, d, expr.
        -- exists (c :: a), x, y, b. simpl. now rewrite H.
      * intros (a & x & y & b & H & Hx & Hy). destruct a as [| z a].
        -- injection H as -> -> ->. now left.
        -- injection H as -> H. right. now exists a, x, y, b.
Qed.

Lemma contains2_spec (p q : N) (expr : jsstring) :
  contains2 p q expr = true <-> exists a b, expr = (a ++ p :: q :: b)%list.
Proof.
  induction expr as [| c expr IH].
  - split; [discriminate |]. intros (a & b & H). now destruct a.
  - destruct expr as [| d expr].
    + split; [discriminate |]. intros (a & b & H).
      destruct a as [| ? [| ? ?]]; discriminate.
    + cbn [contains2]. rewrite orb_true_iff, andb_true_iff, !N.eqb_eq, IH. split.
      * intros [[-> ->] | (a & b & H)].
        -- now exists [], expr.
        -- exists (c :: a), b. simpl. now rewrite H.
      * intros (a & b & H). destruct a as [| z a].
        -- injection H as -> -> ->. now left.
        -- injection H as -> H. right. now exists a, b.
Qed.

Lemma hasUnaryMinus_spec (expr : jsstring) :
  hasUnaryMinus expr = true
  <-> (exists a b, expr = (a ++ js "(-" ++ b)%list) \/ (exists b, expr = (js "-" ++ b)%list).
Proof.
  unfold hasUnaryMinus. rewrite orb_true_iff, contains2_spec. apply or_iff_compat_l.
  change (js "-") with [45%N]. destruct expr as [| c expr]; cbn [startsWith app].
  - split; [discriminate | intros [b H]; discriminate].
  - rewrite andb_true_iff, N.eqb_eq. split.
    + intros [<- _]. now exists expr.
    + intros [b H]. injection H as <- _. split; [reflexivity | now destruct expr].
Qed.

Lemma endsWithOperator_spec (s : jsstring) :
  endsWithOperator s = true <-> exists h c, s = (h ++ [c])%list /\ isOperator c = true.
Proof.
  unfold endsWithOperator. split.
  - destruct (rev s) as [| c t] eqn:Hrev; [discriminate |].
    intros Hc. exists (rev t), c. split; [| exact Hc].
    rewrite <- (rev_involutive s), Hrev. reflexivity.
  - intros (h & c & -> & Hc). rewrite rev_app_distr. exact Hc.
Qed.

(** The host only throws its own exceptions, never an [Error] of the script. *)
Lemma eval_throws (e : expr) (x : exception) :
  eval e = Some (Throws x) -> x = TypeError.
Proof.
  revert x. induction e as [y | | e IH | e IH | op l IHl r IHr | f IHf | f IHf a IHa];
    intros x; simpl.
  - discriminate.
  - discriminate.
  - destruct (eval e) as [[v | x'] |]; simpl; try discriminate.
    intros H; injection H as <-. now apply IH.
  - destruct (eval e) as [[v | x'] |]; simpl; try discriminate.
    intros H; injection H as <-. now apply IH.
  - destruct (eval l) as [[a | x'] |]; simpl; try discriminate.
    + destruct (eval r) as [[b | x''] |]; simpl; try discriminate.
      * destruct op, a, b; simpl; discriminate.
      * intros H; injection H as <-. now apply IHr.
    + intros H; injection H as <-. now apply IHl.
  - destruct (eval f) as [[v | x'] |]; simpl; try discriminate.
    + intros H; now injection H as <-.
    + intros H; injection H as <-. now apply IHf.
  - destruct (eval f) as [[v | x'] |]; simpl; try discriminate.
    + destruct (eval a) as [[w | x''] |]; simpl; try discriminate.
      * intros H; now injection H as <-.
      * intros H; injection H as <-. now apply IHa.
    + intros H; injection H as <-. now apply IHf.
Qed.

Lemma callFunction_throws (expr : jsstring) (x : exception) :
  callFunction expr = Some (Throws x) -> x = SyntaxError \/ x = TypeError.
Proof.
  unfold callFunction, returnStatement.
  destruct (forallb inAlphabet _); [| discriminate].
  destruct (lex _ _) as [ts |].
  - destruct (parse ts) as [e |].
    + intros H. right. now apply (eval_throws e).
    + intros H; injection H as <-. now left.
  - intros H; injection H as <-. now left.
Qed.

Lemma callFunction_no_Error (expr : jsstring) (m : string) :
  callFunction expr <> Some (Throws (Error m)).
Proof.
  intros H. apply callFunction_throws in H. destruct H; discriminate.
Qed.

(** ** The operator transition *)

(** C4: for all valid operators [op1] and [op2], applying [op1] and then
    [op2] gives the very state that [op2] alone gives: the second call
    replaces the operator that the first one put at the end of [history]. *)
Theorem applyOperator_last_wins (st : calculator) (op1 op2 : jsstring) :
  isOperatorInput op1 -> isOperatorInput op2 ->
  applyOperator op2 (applyOperator op1 st) = applyOperator op2 st
  /\ history (applyOperator op2 (applyOperator op1 st))
     = (dropLast (history (applyOperator op1 st)) ++ op2)%list.
Proof.
  intros H1 _. destruct (isOperatorInput_char op1 H1) as [c [-> Hc]].
  assert (Hlast : forall h, endsWithOperator (h ++ [c]) = true)
    by (intros h; now apply endsWithOperator_snoc).
  unfold applyOperator.
  destruct (consumedResult st) eqn:Hflag; simpl.
  - rewrite Hlast, dropLast_snoc. split; reflexivity.
  - destruct (endsWithOperator (history st)) eqn:Hend; simpl; rewrite Hflag.
    + rewrite Hlast, dropLast_snoc. split; reflexivity.
    + rewrite (app_assoc (history st) (current st) [c]).
      rewrite Hlast, dropLast_snoc, <- app_assoc. split; reflexivity.
Qed.

Lemma applyOperator_last_wins_witness :
  applyOperator (js "*") (applyOperator (js "+") initial) = applyOperator (js "*") initial
  /\ history (applyOperator (js "*") (applyOperator (js "+") initial))
     = (dropLast (history (applyOperator (js "+") initial)) ++ js "*")%list.
Proof.
  apply (applyOperator_last_wins initial (js "+") (js "*")).
  - simpl. left. reflexivity.
  - simpl. right. right. left. reflexivity.
Defined.

(** C10: when [consumedResult] is false and [history] ends with an operator
    character, [applyOperator op] replaces that character by [op] and also
    sets [current] to "0", whatever had been typed since; from
    [history = "2+"], [current = "5"], the operator [+] gives
    [history = "2+"] and [current = "0"]. *)
Theorem applyOperator_replace_discards_current
  (st : calculator) (h : jsstring) (c : N) (op : jsstring) :
  consumedResult st = false ->
  history st = (h ++ [c])%list -> isOperator c = true ->
  history (applyOperator op st) = (h ++ op)%list
  /\ current (applyOperator op st) = js "0"
  /\ consumedResult (applyOperator op st) = false
  /\ (h = js "2" -> c = chr "+" -> current st = js "5" -> op = js "+" ->
      history (applyOperator op st) = js "2+" /\ current (applyOperator op st) = js "0").
Proof.
  intros Hflag Hh Hc. unfold applyOperator.
  rewrite Hflag, Hh, (endsWithOperator_snoc h c Hc), dropLast_snoc. simpl.
  split; [reflexivity |]. split; [reflexivity |]. split; [assumption |].
  intros -> _ _ ->. split; reflexivity.
Qed.

Lemma applyOperator_replace_discards_current_witness :
  let st := setCurrent (js "5") (setHistory (js "2+") initial) in
  history (applyOperator (js "+") st) = js "2+"
  /\ current (applyOperator (js "+") st) = js "0".
Proof.
  intros st.
  destruct (applyOperator_replace_discards_current st (js "2") (chr "+") (js "+"))
    as (_ & _ & _ & H).
  - reflexivity.
  - reflexivity.
  - reflexivity.
  - apply H; reflexivity.
Defined.

(** ** Clear *)

(** C8: whatever the state, [clearAll] leaves [current = "0"],
    [history = ""] and [consumedResult = false] (and shows them). *)
Theorem clearAll_resets (st : calculator) :
  current (clearAll st) = js "0"
  /\ history (clearAll st) = []
  /\ consumedResult (clearAll st) = false
  /\ currentEl (clearAll st) = js "0"
  /\ historyEl (clearAll st) = [].
Proof. repeat split. Qed.

(** ** The checks of [safeEval] *)

Lemma stripSpaces_trimStart (s : jsstring) : stripSpaces (trimStart s) = stripSpaces s.
Proof.
  unfold stripSpaces. induction s as [| c s IH]; simpl; [reflexivity |].
  destruct (isSpace c) eqn:Hc; simpl; [exact IH | now rewrite Hc].
Qed.

Lemma stripSpaces_rev (s : jsstring) : stripSpaces (rev s) = rev (stripSpaces s).
Proof.
  unfold stripSpaces. induction s as [| c s IH]; simpl; [reflexivity |].
  rewrite filter_app, IH. simpl. destruct (isSpace c); simpl; [now rewrite app_nil_r | reflexivity].
Qed.

Lemma stripSpaces_trim (s : jsstring) : stripSpaces (trim s) = stripSpaces s.
Proof.
  unfold trim.
  now rewrite stripSpaces_rev, stripSpaces_trimStart, stripSpaces_rev, rev_involutive,
    stripSpaces_trimStart.
Qed.

Lemma stripSpaces_replaceAll_length (c d : N) (s : jsstring) :
  isSpace c = false -> isSpace d = false ->
  List.length (stripSpaces (replaceAll c d s)) = List.length (stripSpaces s).
Proof.
  intros Hc Hd. unfold stripSpaces, replaceAll.
  induction s as [| x s IH]; simpl; [reflexivity |].
  destruct (N.eqb_spec x c) as [-> | Hx].
  - rewrite Hc, Hd. simpl. now rewrite IH.
  - destruct (isSpace x); simpl; now rewrite IH.
Qed.

(** Replacing the three signs and trimming does not change how many
    characters are left once the white space is removed. *)
Lemma stripSpaces_normalizeVisual_length (expr : jsstring) :
  List.length (stripSpaces (normalizeVisual expr)) = List.length (stripSpaces expr).
Proof.
  unfold normalizeVisual. rewrite stripSpaces_trim.
  now rewrite !stripSpaces_replaceAll_length.
Qed.

(** C9: an expression whose form without white space has more than 180
    characters, all of them allowed, and which passes the operator-run
    check, fails with "Expression too long"; the host evaluator [host] is
    not consulted, whatever it is. *)
Theorem safeEval_too_long (host : jsstring -> option (completion value)) (expr : jsstring) :
  (180 < List.length (stripSpaces expr))%nat ->
  hasInvalidChar (stripSpaces (normalizeVisual expr)) = false ->
  hasOperatorRun (stripSpaces (normalizeVisual expr)) = false
  \/ hasUnaryMinus (stripSpaces (normalizeVisual expr)) = true ->
  safeEvalWith host expr = Some (Throws (Error "Expression too long"))
  /\ safeEval expr = Some (Throws (Error "Expression too long")).
Proof.
  intros Hlen Hchars Hrun.
  assert (H : forall h, safeEvalWith h expr = Some (Throws (Error "Expression too long"))).
  { intros h. unfold safeEvalWith. rewrite Hchars.
    replace (hasOperatorRun _ && negb (hasUnaryMinus _)) with false
      by (destruct Hrun as [-> | ->]; [reflexivity | now rewrite andb_false_r]).
    rewrite stripSpaces_normalizeVisual_length.
    apply Nat.ltb_lt in Hlen. now rewrite Hlen. }
  split; [apply H | apply (H callFunction)].
Qed.

Lemma safeEval_too_long_witness :
  safeEvalWith (fun _ => None) (repeat (chr "1") 181)
    = Some (Throws (Error "Expression too long"))
  /\ safeEval (repeat (chr "1") 181) = Some (Throws (Error "Expression too long")).
Proof.
  apply (safeEval_too_long (fun _ => None) (repeat (chr "1") 181)).
  - vm_compute. lia.
  - vm_compute. reflexivity.
  - left. vm_compute. reflexivity.
Defined.

Lemma safeEval_malformed_test (expr : jsstring) :
  hasInvalidChar (stripSpaces (normalizeVisual expr)) = false ->
  (safeEval expr = Some (Throws (Error "Malformed expression"))
   <-> hasOperatorRun (stripSpaces (normalizeVisual expr)) = true
       /\ hasUnaryMinus (stripSpaces (normalizeVisual expr)) = false).
Proof.
  intros Hchars. unfold safeEval, safeEvalWith. rewrite Hchars.
  destruct (hasOperatorRun _); destruct (hasUnaryMinus _); simpl.
  - split; [| intros [_ H]; discriminate].
    destruct (_ <? _)%nat; [discriminate |].
    intros H. now apply callFunction_no_Error in H.
  - split; [now split | reflexivity].
  - split; [| intros [H _]; discriminate].
    destruct (_ <? _)%nat; [discriminate |].
    intros H. now apply callFunction_no_Error in H.
  - split; [| intros [H _]; discriminate].
    destruct (_ <? _)%nat; [discriminate |].
    intros H. now apply callFunction_no_Error in H.
Qed.

(** C1, as the code has it: for an expression [e] (white space removed)
    made of allowed characters only, [safeEval] fails with "Malformed
    expression" exactly when [e] has two operator characters in a row and
    has neither a "(-" anywhere nor a "-" at its start.  A "(-" or a
    leading "-" switches the check off for the whole expression. *)
Theorem safeEval_malformed_iff (expr e : jsstring) :
  e = stripSpaces (normalizeVisual expr) ->
  hasInvalidChar e = false ->
  (safeEval expr = Some (Throws (Error "Malformed expression"))
   <-> (exists a c d b, e = (a ++ c :: d :: b)%list
          /\ isOperator c = true /\ isOperator d = true)
       /\ ~ (exists a b, e = (a ++ js "(-" ++ b)%list)
       /\ ~ (exists b, e = (js "-" ++ b)%list)).
Proof.
  intros -> Hchars. rewrite (safeEval_malformed_test expr Hchars).
  rewrite hasOperatorRun_spec. apply and_iff_compat_l.
  rewrite <- not_true_iff_false, hasUnaryMinus_spec. tauto.
Qed.

Lemma safeEval_malformed_iff_witness :
  safeEval (js "1++2") = Some (Throws (Error "Malformed expression"))
  <-> (exists a c d b, js "1++2" = (a ++ c :: d :: b)%list
         /\ isOperator c = true /\ isOperator d = true)
      /\ ~ (exists a b, js "1++2" = (a ++ js "(-" ++ b)%list)
      /\ ~ (exists b, js "1++2" = (js "-" ++ b)%list).
Proof.
  apply (safeEval_malformed_iff (js "1++2") (js "1++2")).
  - vm_compute. reflexivity.
  - vm_compute. reflexivity.
Defined.

(** The expression "(-1)+-2" has the operator run "+-", which is not a
    "(-", and does not start with "-"; it is accepted all the same and
    evaluates to -3.  And "1++x", with the run "++" and no unary minus,
    fails on its character "x", not as a malformed expression. *)
Lemma safeEval_operator_run_accepted :
  stripSpaces (normalizeVisual (js "(-1)+-2")) = js "(-1)+-2"
  /\ hasOperatorRun (js "(-1)+-2") = true
  /\ startsWith (js "-") (js "(-1)+-2") = false
  /\ safeEval (js "(-1)+-2") = Some (Returns (VNumber (ofDecimal true 3 0)))
  /\ safeEval (js "(-1)+-2") <> Some (Throws (Error "Malformed expression"))
  /\ hasOperatorRun (js "1++x") = true
  /\ hasUnaryMinus (js "1++x") = false
  /\ safeEval (js "1++x") = Some (Throws (Error "Invalid characters in expression")).
Proof.
  split; [vm_compute; reflexivity |]. split; [vm_compute; reflexivity |].
  split; [vm_compute; reflexivity |]. split; [vm_compute; reflexivity |].
  split; [vm_compute; discriminate |].
  split; [vm_compute; reflexivity |]. split; vm_compute; reflexivity.
Qed.

(** ** Reachable states *)

Lemma reachable_run (acts : list action) (st st' : calculator) :
  reachable st -> Forall validAction acts -> run acts st = Some st' -> reachable st'.
Proof.
  revert st. induction acts as [| a acts IH]; intros st Hst Hv; simpl.
  - intros H; injection H as <-. exact Hst.
  - destruct (step a st) as [st1 |] eqn:Hstep; [| discriminate].
    inversion Hv; subst. apply IH; [| assumption].
    now apply (reachable_step a st st1).
Qed.

Lemma isDigitInput_digit (c : N) : isDigit c = true -> isDigitInput [c].
Proof. intros H. right. now exists c. Qed.

Lemma isDigitInput_point : isDigitInput (js ".").
Proof. now left. Qed.

Lemma eqb_eq (a b : jsstring) : JSString.eqb a b = true <-> a = b.
Proof.
  revert b. induction a as [| x a IH]; intros [| y b]; simpl; try (split; congruence).
  rewrite andb_true_iff, N.eqb_eq, IH. split; [intros [-> ->]; reflexivity | intros H; now inversion H].
Qed.

(** A key named by one character starts a valid action, if any. *)
Lemma keydown_valid (c : N) (a : action) : keydown [c] = Some a -> validAction a.
Proof.
  unfold keydown.
  destruct ((JSString.leb (js "0") [c] && JSString.leb [c] (js "9"))
            || JSString.eqb [c] (js ".")) eqn:Hd.
  - intros H; injection H as <-. simpl.
    apply orb_true_iff in Hd. destruct Hd as [Hd | Hd].
    + apply isDigitInput_digit. apply andb_true_iff in Hd. destruct Hd as [H0 H9].
      cbn [JSString.leb js map list_ascii_of_string] in H0, H9.
      unfold isDigit. apply andb_true_iff.
      rewrite N.leb_le. rewrite N.leb_le.
      rewrite !orb_true_iff, !andb_true_iff, ?N.ltb_lt, ?N.eqb_eq in H0, H9.
      change (N_of_ascii "0") with 48%N in H0. change (N_of_ascii "9") with 57%N in H9.
      lia.
    + left. now apply eqb_eq.
  - destruct (JSString.eqb [c] (js "Enter") || JSString.eqb [c] (js "="));
      [intros H; now injection H as <- |].
    destruct (JSString.eqb [c] (js "Backspace")); [intros H; now injection H as <- |].
    destruct (JSString.eqb [c] (js "Escape")); [intros H; now injection H as <- |].
    destruct (existsb _ _) eqn:Hop.
    + intros H; injection H as <-. simpl. unfold isOperatorInput.
      apply existsb_exists in Hop. destruct Hop as [op [Hin Heq]].
      apply eqb_eq in Heq. now subst op.
    + destruct (JSString.eqb [c] (js "%")); [intros H; now injection H as <- | discriminate].
Qed.

(** The inputs of a concrete run are valid. *)
Ltac valid_actions :=
  repeat (apply Forall_cons || apply Forall_nil); simpl;
  try exact I;
  try exact isDigitInput_point;
  try (apply isDigitInput_digit; reflexivity);
  try (unfold isOperatorInput; simpl; auto 10).

(** ** Evaluation *)

Lemma safeEval_throws (expr : jsstring) (x : exception) :
  safeEval expr = Some (Throws x) -> In x evaluationErrors.
Proof.
  unfold safeEval, safeEvalWith, evaluationErrors. simpl.
  destruct (hasInvalidChar _); [intros H; injection H as <-; auto 10 |].
  destruct (_ && _); [intros H; injection H as <-; auto 10 |].
  destruct (_ <? _)%nat; [intros H; injection H as <-; auto 10 |].
  intros H. apply callFunction_throws in H. destruct H as [-> | ->]; auto 10.
Qed.

(** Whenever it runs, the timer of [showError] resets [current] only. *)
Lemma errorTimeout_resets (st st' : calculator) :
  errorTimeout st = Some st' ->
  current st' = js "0" /\ currentEl st' = js "0"
  /\ history st' = history st /\ consumedResult st' = consumedResult st.
Proof.
  unfold errorTimeout. destruct (errorTimers st); [discriminate |].
  intros H; injection H as <-. repeat split.
Qed.

(** Each of the six errors does occur. *)
Lemma evaluationErrors_attained (e : exception) :
  In e evaluationErrors ->
  exists h c, evaluateBody (setCurrent c (setHistory h initial)) = Some (Throws e).
Proof.
  unfold evaluationErrors. simpl.
  intros [<- | [<- | [<- | [<- | [<- | [<- | []]]]]]].
  - exists (js "2+3 ="), (js "5"). vm_compute. reflexivity.
  - exists (js "1++"), (js "2"). vm_compute. reflexivity.
  - exists [], (repeat (chr "1") 181). vm_compute. reflexivity.
  - exists (js "5/"), (js "0"). vm_compute. reflexivity.
  - exists (js "1+"), (js "."). vm_compute. reflexivity.
  - exists (js "5("), (js "3)"). vm_compute. reflexivity.
Qed.

(** C2, as the code has it: when the evaluation in [evaluateExpression]
    fails (one of the six errors), "Err" is displayed, [current], [history]
    and [consumedResult] are left as they were, and the timer that
    [showError] starts resets [current] to "0" with [history] and
    [consumedResult] still unchanged.  So [consumedResult] remains false
    when it was false. *)
Theorem evaluateExpression_failure (st : calculator) (e : exception) :
  evaluateBody st = Some (Throws e) ->
  In e evaluationErrors
  /\ evaluateExpression st = Some (showError st)
  /\ currentEl (showError st) = js "Err"
  /\ current (showError st) = current st
  /\ history (showError st) = history st
  /\ consumedResult (showError st) = consumedResult st
  /\ exists st', errorTimeout (showError st) = Some st'
       /\ current st' = js "0" /\ currentEl st' = js "0"
       /\ history st' = history st
       /\ consumedResult st' = consumedResult st.
Proof.
  intros H. split.
  - unfold evaluateBody in H.
    destruct (normalizeVisual _) as [| c expr]; [discriminate |].
    destruct (safeEval (c :: expr)) as [[result | x] |] eqn:Hs; simpl in H.
    + destruct (isFinite (toNumber result)); simpl in H; [discriminate |].
      injection H as <-. unfold evaluationErrors. simpl. auto 10.
    + injection H as <-. now apply (safeEval_throws (c :: expr)).
    + discriminate.
  - unfold evaluateExpression. rewrite H. repeat split.
    eexists. split; [reflexivity |]. repeat split.
Qed.

Lemma evaluateExpression_failure_witness :
  let st := setCurrent (js "0") (setHistory (js "5/") initial) in
  In (Error "Result not finite") evaluationErrors
  /\ evaluateExpression st = Some (showError st)
  /\ currentEl (showError st) = js "Err"
  /\ current (showError st) = current st
  /\ history (showError st) = history st
  /\ consumedResult (showError st) = consumedResult st
  /\ exists st', errorTimeout (showError st) = Some st'
       /\ current st' = js "0" /\ currentEl st' = js "0"
       /\ history st' = history st
       /\ consumedResult st' = consumedResult st.
Proof.
  intros st. apply (evaluateExpression_failure st (Error "Result not finite")).
  vm_compute. reflexivity.
Defined.

(** After "2+3" has been evaluated, [consumedResult] is true; evaluating
    again fails (the expression is now "2+3 =5") and [consumedResult] is
    still true afterwards, also once the timer has run. *)
Lemma evaluateExpression_failure_keeps_flag :
  let st := {| current := js "5"; history := js "2+3 ="; consumedResult := true;
               currentEl := js "5"; historyEl := js "2+3 ="; errorTimers := 0 |} in
  reachable st
  /\ evaluateBody st = Some (Throws (Error "Invalid characters in expression"))
  /\ exists st' st'', evaluateExpression st = Some st'
       /\ consumedResult st' = true
       /\ errorTimeout st' = Some st''
       /\ consumedResult st'' = true.
Proof.
  intros st. split; [| split].
  - apply (reachable_run [Digit (js "2"); Operator (js "+"); Digit (js "3"); Equals] initial).
    + constructor.
    + valid_actions.
    + vm_compute. reflexivity.
  - vm_compute. reflexivity.
  - eexists. eexists. repeat split; vm_compute; reflexivity.
Qed.

(** C5: from [history = "2+"] and [current = "3"], [evaluateExpression]
    succeeds with [current = "5"], [history = "2+3 ="] and
    [consumedResult = true] (and displays them). *)
Theorem evaluateExpression_two_plus_three (flag : bool) (shown shownHistory : jsstring) (n : nat) :
  evaluateExpression
    {| current := js "3"; history := js "2+"; consumedResult := flag;
       currentEl := shown; historyEl := shownHistory; errorTimers := n |}
  = Some {| current := js "5"; history := js "2+3 ="; consumedResult := true;
            currentEl := js "5"; historyEl := js "2+3 ="; errorTimers := n |}.
Proof. vm_compute. reflexivity. Qed.

(** ** Percent *)

(** C7: when [safeEval (current)] succeeds with [val], [doPercent] sets
    [current] to the string of [val / 100] and leaves [history] (and
    [consumedResult]) unchanged; with [current = "50"] the new [current]
    is "0.5". *)
Theorem doPercent_divides_by_100 (st : calculator) (val : value) :
  safeEval (current st) = Some (Returns val) ->
  exists st', doPercent st = Some st'
    /\ current st' = toString (divide (toNumber val) hundred)
    /\ history st' = history st
    /\ consumedResult st' = consumedResult st
    /\ currentEl st' = current st'
    /\ (current st = js "50" -> current st' = js "0.5").
Proof.
  intros H. unfold doPercent, percentBody. rewrite H. simpl.
  eexists. split; [reflexivity |]. simpl. repeat split.
  intros Hc. rewrite Hc in H. vm_compute in H. injection H as <-.
  vm_compute. reflexivity.
Qed.

Lemma doPercent_divides_by_100_witness :
  exists st', doPercent (setCurrent (js "50") initial) = Some st'
    /\ current st' = toString (divide (toNumber (VNumber (ofDecimal false 50 0))) hundred)
    /\ history st' = history (setCurrent (js "50") initial)
    /\ consumedResult st' = consumedResult (setCurrent (js "50") initial)
    /\ currentEl st' = current st'
    /\ (current (setCurrent (js "50") initial) = js "50" -> current st' = js "0.5").
Proof.
  apply (doPercent_divides_by_100 (setCurrent (js "50") initial) (VNumber (ofDecimal false 50 0))).
  vm_compute. reflexivity.
Defined.

(** ** Decimal points *)

Lemma count_app (c : N) (a b : jsstring) :
  count c (a ++ b) = (count c a + count c b)%nat.
Proof. unfold count. now rewrite filter_app, length_app. Qed.

Lemma count_ofUint (d : Decimal.uint) : count (chr ".") (ofUint d) = 0%nat.
Proof. induction d; simpl; auto. Qed.

Lemma count_decimal (n : N) : count (chr ".") (decimal n) = 0%nat.
Proof. apply count_ofUint. Qed.

Lemma count_zeros (n : Z) : count (chr ".") (zeros n) = 0%nat.
Proof. unfold zeros. induction (Z.to_nat n); simpl; auto. Qed.

Lemma count_split (c : N) (n : nat) (s : jsstring) :
  (count c (firstn n s) + count c (skipn n s))%nat = count c s.
Proof. now rewrite <- count_app, firstn_skipn. Qed.

Lemma count_dropLast (c : N) (s : jsstring) : (count c (dropLast s) <= count c s)%nat.
Proof.
  unfold dropLast, count. induction s as [| x s IH]; simpl; [lia |].
  destruct s as [| y s]; [simpl; lia |].
  simpl in *. destruct (N.eqb c x); simpl; lia.
Qed.

Lemma includes_count (c : N) (s : jsstring) :
  includes c s = false <-> count c s = 0%nat.
Proof.
  unfold includes, count. induction s as [| x s IH]; simpl; [tauto |].
  destruct (N.eqb c x); simpl; [split; discriminate | exact IH].
Qed.

Lemma render_point (snk : Z * Z * Z) : (count (chr ".") (render snk) <= 1)%nat.
Proof.
  destruct snk as [[s n] k]. unfold render. cbv zeta.
  assert (Hexp : forall e, count (chr ".") (if e <? 0 then js "e-" else js "e+") = 0%nat)
    by (intros e; now destruct (e <? 0)).
  assert (Hpoint : count (chr ".") (js ".") = 1%nat) by reflexivity.
  assert (Hzero : count (chr ".") (js "0.") = 1%nat) by reflexivity.
  pose proof (count_split (chr ".") (Z.to_nat n) (decimal (Z.to_N s))) as Hn.
  pose proof (count_split (chr ".") 1 (decimal (Z.to_N s))) as H1.
  rewrite count_decimal in Hn, H1.
  destruct (_ && _); [| destruct (_ && _); [| destruct (_ && _); [| destruct (k =? 1)]]];
    rewrite ?count_app, ?Hexp, ?Hpoint, ?Hzero, ?count_zeros, ?count_decimal; lia.
Qed.

(** The text of a Number has at most one decimal point. *)
Lemma toString_point (x : number) : (count (chr ".") (toString x) <= 1)%nat.
Proof.
  destruct x as [s | s | | s m e]; unfold toString.
  - simpl. auto.
  - destruct s; simpl; auto.
  - simpl. auto.
  - rewrite count_app.
    pose proof (render_point (shortest 17 1 (exact m e) (decimalExponent (exact m e)))) as H.
    destruct s; exact H.
Qed.

Lemma appendDigit_point (d : jsstring) (st : calculator) :
  isDigitInput d ->
  (count (chr ".") (current st) <= 1)%nat ->
  (count (chr ".") (current (appendDigit d st)) <= 1)%nat.
Proof.
  intros Hd Hst. unfold appendDigit. change (chr ".") with 46%N in *.
  destruct Hd as [-> | [c [-> Hc]]].
  - change (JSString.eqb (js ".") (js ".")) with true. rewrite andb_false_r. simpl.
    destruct (consumedResult st); simpl; [auto |].
    destruct (includes 46 (current st)) eqn:Hin; [exact Hst |].
    simpl. apply includes_count in Hin. rewrite count_app, Hin. simpl. auto.
  - assert (Hne : JSString.eqb [c] (js ".") = false).
    { simpl. destruct (N.eqb_spec c 46) as [-> | _]; [discriminate | reflexivity]. }
    assert (Hcount : count 46 [c] = 0%nat).
    { unfold count. cbn [filter]. destruct (N.eqb_spec 46 c) as [<- | _]; [discriminate | reflexivity]. }
    rewrite Hne. simpl.
    destruct (consumedResult st); simpl; [lia |].
    destruct (JSString.eqb (current st) (js "0")); simpl; [lia |].
    rewrite count_app. lia.
Qed.

Lemma step_point (a : action) (st st' : calculator) :
  validAction a -> step a st = Some st' ->
  (count (chr ".") (current st) <= 1)%nat ->
  (count (chr ".") (current st') <= 1)%nat.
Proof.
  intros Hv Hstep Hst. pose proof toString_point as Htext.
  change (chr ".") with 46%N in *. destruct a; simpl in Hstep.
  - injection Hstep as <-. now apply appendDigit_point.
  - injection Hstep as <-. unfold applyOperator.
    destruct (consumedResult st); simpl; auto.
  - unfold doPercent, percentBody in Hstep.
    destruct (safeEval (current st)) as [[val | x] |]; simpl in Hstep; [| | discriminate].
    + injection Hstep as <-. simpl. apply Htext.
    + injection Hstep as <-. exact Hst.
  - injection Hstep as <-. unfold backspace.
    destruct (consumedResult st); simpl; [auto |].
    destruct (_ <=? _)%nat; [auto |].
    pose proof (count_dropLast 46 (current st)). lia.
  - injection Hstep as <-. simpl. auto.
  - unfold evaluateExpression, evaluateBody in Hstep.
    destruct (normalizeVisual _) as [| c expr].
    + injection Hstep as <-. exact Hst.
    + destruct (safeEval (c :: expr)) as [[result | x] |]; simpl in Hstep; [| | discriminate].
      * destruct (isFinite (toNumber result)); simpl in Hstep.
        -- injection Hstep as <-. simpl. unfold formatResult.
           destruct (isInteger _); apply Htext.
        -- injection Hstep as <-. exact Hst.
      * injection Hstep as <-. exact Hst.
  - unfold errorTimeout in Hstep. destruct (errorTimers st); [discriminate |].
    injection Hstep as <-. simpl. auto.
Qed.

Lemma reachable_point (st : calculator) :
  reachable st -> (count (chr ".") (current st) <= 1)%nat.
Proof.
  induction 1 as [| a st st' _ IH Hv Hstep]; [simpl; auto |].
  now apply (step_point a st st').
Qed.

Lemma appendDigits_point (ds : list jsstring) (st : calculator) :
  Forall isDigitInput ds ->
  (count (chr ".") (current st) <= 1)%nat ->
  (count (chr ".") (current (appendDigits ds st)) <= 1)%nat.
Proof.
  unfold appendDigits. revert st.
  induction ds as [| d ds IH]; intros st Hds Hst; simpl; [exact Hst |].
  inversion Hds; subst. apply IH; [assumption |]. now apply appendDigit_point.
Qed.

(** C3, as the code has it: from every reachable state, any run of digit
    inputs (each one of 0-9 or ".") leaves at most one decimal point in
    [current]; and a "." typed while [current] already has one changes
    nothing, provided [consumedResult] is false (after an evaluation the
    "." starts the new number "0." instead). *)
Theorem appendDigits_one_decimal_point (st : calculator) (ds : list jsstring) :
  reachable st -> Forall isDigitInput ds ->
  (count (chr ".") (current (appendDigits ds st)) <= 1)%nat
  /\ (consumedResult st = false -> includes (chr ".") (current st) = true ->
      appendDigit (js ".") st = st).
Proof.
  intros Hst Hds. split.
  - apply appendDigits_point; [assumption |]. now apply reachable_point.
  - intros Hflag Hin. unfold appendDigit. rewrite Hflag, Hin. simpl.
    now rewrite andb_false_r.
Qed.

Lemma appendDigits_one_decimal_point_witness :
  (count (chr ".") (current (appendDigits [js "1"; js "."; js "."; js "5"; js "."] initial)) <= 1)%nat
  /\ (consumedResult initial = false -> includes (chr ".") (current initial) = true ->
      appendDigit (js ".") initial = initial).
Proof.
  apply (appendDigits_one_decimal_point initial [js "1"; js "."; js "."; js "5"; js "."]).
  - exact reachable_initial.
  - valid_actions.
Defined.

(** After "1/2" has been evaluated, [current] is "0.5" and has a decimal
    point; the input "." then replaces it by "0.". *)
Lemma appendDigit_point_after_result :
  let st := {| current := js "0.5"; history := js "1/2 ="; consumedResult := true;
               currentEl := js "0.5"; historyEl := js "1/2 ="; errorTimers := 0 |} in
  reachable st
  /\ includes (chr ".") (current st) = true
  /\ current (appendDigit (js ".") st) = js "0."
  /\ current (appendDigit (js ".") st) <> current st.
Proof.
  intros st. split; [| split; [| split]].
  - apply (reachable_run [Digit (js "1"); Operator (js "/"); Digit (js "2"); Equals] initial).
    + constructor.
    + valid_actions.
    + vm_compute. reflexivity.
  - reflexivity.
  - reflexivity.
  - vm_compute. discriminate.
Qed.

(** ** The text of a result *)

Lemma same_refl (x : number) : same x x = true.
Proof.
  destruct x as [s | s | | s m e]; unfold same.
  - apply Bool.eqb_reflx.
  - apply Bool.eqb_reflx.
  - reflexivity.
  - now rewrite Bool.eqb_reflx, Pos.eqb_refl, Z.eqb_refl.
Qed.

(** An integer-valued Number has an exact value with denominator 1. *)
Lemma exact_integer (s : bool) (m : positive) (e : Z) :
  isInteger (S754_finite s m e) = true -> snd (exact m e) = 1%positive.
Proof.
  unfold isInteger, exact. destruct (0 <=? e) eqn:He; [reflexivity |].
  cbn [orb snd]. intros H. apply Z.eqb_eq in H. apply Z.leb_gt in He.
  assert (Hpow : 0 < 2 ^ (- e)) by (apply Z.pow_pos_nonneg; lia).
  assert (Hg : Z.gcd (Zpos m) (2 ^ (- e)) = 2 ^ (- e)).
  { rewrite Z.gcd_comm. apply Z.divide_gcd_iff; [lia |].
    apply Z.mod_divide; [lia | exact H]. }
  rewrite Hg, Z.div_same by lia. reflexivity.
Qed.

Lemma digitCountFrom_spec (fuel : nat) (d z : Z) :
  d <= digitCountFrom fuel d z
  /\ forall d', d <= d' < digitCountFrom fuel d z -> 10 ^ d' <= z.
Proof.
  revert d. induction fuel as [| fuel IH]; intros d; simpl.
  - split; [lia | intros d' H; lia].
  - destruct (z <? 10 ^ d) eqn:Hz.
    + split; [lia | intros d' H; lia].
    + apply Z.ltb_ge in Hz. destruct (IH (d + 1)) as [H1 H2]. split; [lia |].
      intros d' Hd'. destruct (Z.eq_dec d' d) as [-> | Hne]; [exact Hz |].
      apply H2. lia.
Qed.

(** [digitCount z] is the number of decimal digits of [z]. *)
Lemma digitCount_spec (z : Z) :
  0 < z -> 10 ^ (digitCount z - 1) <= z < 10 ^ digitCount z.
Proof.
  intros Hz. unfold digitCount.
  assert (Hfuel : forall fuel d, 1 <= d -> z < 10 ^ (d + Z.of_nat fuel) ->
            z < 10 ^ digitCountFrom fuel d z).
  { induction fuel as [| fuel IH]; intros d Hd Hlt; simpl.
    - now rewrite Z.add_0_r in Hlt.
    - destruct (z <? 10 ^ d) eqn:H; [now apply Z.ltb_lt |].
      apply IH; [lia |]. now replace (d + 1 + Z.of_nat fuel) with (d + Z.of_nat (S fuel)) by lia. }
  destruct (digitCountFrom_spec (Z.to_nat (Z.log2 z)) 1 z) as [H1 H2]. split.
  - destruct (Z.eq_dec (digitCountFrom (Z.to_nat (Z.log2 z)) 1 z) 1) as [-> | Hne];
      [simpl; lia | apply H2; lia].
  - apply Hfuel; [lia |].
    rewrite Z2Nat.id by apply Z.log2_nonneg.
    destruct (Z.log2_spec z Hz) as [_ Hlog].
    apply (Z.lt_le_trans _ _ _ Hlog).
    replace (Z.succ (Z.log2 z)) with (1 + Z.log2 z) by lia.
    apply Z.pow_le_mono_l. lia.
Qed.

Lemma digitCount_bounds (z : Z) :
  z < 10 ^ 21 -> 1 <= digitCount z <= 21.
Proof.
  intros Hz. unfold digitCount.
  destruct (digitCountFrom_spec (Z.to_nat (Z.log2 z)) 1 z) as [H1 H2].
  split; [exact H1 |].
  destruct (Z_le_gt_dec (digitCountFrom (Z.to_nat (Z.log2 z)) 1 z) 21) as [H | H]; [exact H |].
  specialize (H2 21). lia.
Qed.

Section Shortest.
Variables (r : ratio) (n0 : Z).

Lemma shortest_exit (fuel : nat) (k : Z) :
  exists k' c,
    shortest fuel k r n0 = pick k' n0 c
    /\ k <= k' <= k + Z.of_nat fuel
    /\ (c = lowDigits r n0 k' \/ (c = lowDigits r n0 k' + 1 /\ roundTrips r c (n0 - k') = true))
    /\ forall j, k <= j < k' ->
         roundTrips r (lowDigits r n0 j) (n0 - j) = false
         /\ roundTrips r (lowDigits r n0 j + 1) (n0 - j) = false.
Proof.
  revert k. induction fuel as [| fuel IH]; intros k.
  - exists k, (lowDigits r n0 k). split; [reflexivity |]. split; [lia |].
    split; [now left | intros j Hj; lia].
  - cbn [shortest]. fold (lowDigits r n0 k).
    destruct (roundTrips r (lowDigits r n0 k) (n0 - k)) eqn:Hlo;
      destruct (roundTrips r (lowDigits r n0 k + 1) (n0 - k)) eqn:Hhi.
    + assert (H : exists c, (c = lowDigits r n0 k \/ c = lowDigits r n0 k + 1)
                  /\ match 2 * Zpos (fst (scale10 r (k - n0)))
                             ?= (lowDigits r n0 k + (lowDigits r n0 k + 1)) * Zpos (snd (scale10 r (k - n0))) with
                     | Eq => if Z.even (lowDigits r n0 k) then pick k n0 (lowDigits r n0 k)
                             else pick k n0 (lowDigits r n0 k + 1)
                     | Lt => pick k n0 (lowDigits r n0 k)
                     | Gt => pick k n0 (lowDigits r n0 k + 1)
                     end = pick k n0 c).
      { destruct (_ ?= _); [destruct (Z.even _) | |]; eauto. }
      destruct H as [c [Hc ->]]. exists k, c.
      split; [reflexivity |]. split; [lia |]. split; [| intros j Hj; lia].
      destruct Hc as [-> | ->]; [now left | right; now split].
    + exists k, (lowDigits r n0 k).
      split; [reflexivity |]. split; [lia |]. split; [now left | intros j Hj; lia].
    + exists k, (lowDigits r n0 k + 1).
      split; [reflexivity |]. split; [lia |]. split; [right; now split | intros j Hj; lia].
    + destruct (IH (k + 1)) as [k' [c [H1 [H2 [H3 H4]]]]].
      exists k', c.
      split; [exact H1 |]. split; [lia |]. split; [exact H3 |].
      intros j Hj. destruct (Z.eq_dec j k) as [-> | Hne]; [now split | apply H4; lia].
Qed.
End Shortest.

Lemma pow10_pos (j : Z) : 0 <= j -> Zpos (pow10 j) = 10 ^ j.
Proof.
intros Hj. unfold pow10. apply Z2Pos.id. apply Z.pow_pos_nonneg; lia.
Qed.

Section IntegerDigits.
Variable X : positive.
Hypothesis Hbound : Zpos X < 10 ^ 21.
Let r : ratio := (X, 1%positive).
Let n0 : Z := digitCount (Zpos X).

Lemma lowDigits_integer (j : Z) : j <= n0 -> lowDigits r n0 j = Zpos X / 10 ^ (n0 - j).
Proof.
  intros Hj. unfold lowDigits, scale10, floorR, r.
  destruct (0 <=? j - n0) eqn:H0; cbn [fst snd].
  - apply Z.leb_le in H0. replace (j - n0) with 0 by lia. replace (n0 - j) with 0 by lia.
    change (pow10 0) with 1%positive. now rewrite Pos.mul_1_r.
  - apply Z.leb_gt in H0. rewrite Pos.mul_1_l, pow10_pos by lia.
    now replace (- (j - n0)) with (n0 - j) by lia.
Qed.

Lemma roundTrips_integer : roundTrips r (Zpos X) 0 = true.
Proof.
  unfold roundTrips, scale10, r. cbn [Z.leb Z.compare fst snd Z.to_pos].
  change (pow10 0) with 1%positive. rewrite Pos.mul_1_r. apply same_refl.
Qed.

Lemma roundTrips_power (k : Z) :
  1 <= k <= 21 -> roundTrips r (10 ^ k) (21 - k) = roundTrips r 10 20.
Proof.
  intros Hk. unfold roundTrips, scale10. cbn [fst snd].
  replace (0 <=? 21 - k) with true by (symmetry; apply Z.leb_le; lia).
  change (0 <=? 20) with true.
  assert (H : (Z.to_pos (10 ^ k) * pow10 (21 - k) = Z.to_pos 10 * pow10 20)%positive).
  { unfold pow10. rewrite <- !Z2Pos.inj_mul by (try apply Z.pow_pos_nonneg; lia).
    rewrite <- Z.pow_add_r by lia. replace (k + (21 - k)) with 21 by lia. reflexivity. }
  now rewrite H.
Qed.

Lemma shortest_integer :
  count (chr ".") (render (shortest 17 1 r n0)) = 0%nat.
Proof.
  assert (Hn0 : 1 <= n0 <= 21) by (apply digitCount_bounds; exact Hbound).
  destruct (shortest_exit r n0 17 1) as [k' [c [Heq [Hk [Hc Hmin]]]]].
  assert (HA : k' <= n0).
  { destruct (Z_le_gt_dec k' n0) as [H | H]; [exact H |].
    destruct (Hmin n0) as [Hlo _]; [lia |].
    rewrite lowDigits_integer, Z.sub_diag in Hlo by lia.
    change (10 ^ 0) with 1 in Hlo. rewrite Z.div_1_r in Hlo.
    now rewrite roundTrips_integer in Hlo. }
  assert (Hplain : forall s n, k' <= n <= 21 -> count (chr ".") (render (s, n, k')) = 0%nat).
  { intros s n Hn. unfold render.
    replace ((k' <=? n) && (n <=? 21)) with true
      by (symmetry; apply andb_true_iff; split; apply Z.leb_le; lia).
    now rewrite count_app, count_decimal, count_zeros. }
  rewrite Heq. unfold pick. destruct (c =? 10 ^ k') eqn:Hten.
  - apply Z.eqb_eq in Hten.
    destruct (Z_le_gt_dec (n0 + 1) 21) as [H | H]; [apply Hplain; lia |].
    assert (Hn : n0 = 21) by lia.
    assert (Hlow : lowDigits r n0 k' = Zpos X / 10 ^ (21 - k'))
      by (rewrite lowDigits_integer, Hn by lia; reflexivity).
    assert (Hsplit : 10 ^ k' * 10 ^ (21 - k') = 10 ^ 21)
      by (rewrite <- Z.pow_add_r by lia; f_equal; lia).
    assert (Hp : 0 < 10 ^ (21 - k')) by (apply Z.pow_pos_nonneg; lia).
    pose proof (Z.mul_div_le (Zpos X) (10 ^ (21 - k')) Hp) as Hdiv.
    assert (Hk1 : k' = 1).
    { destruct (Z.eq_dec k' 1) as [H1 | H1]; [exact H1 | exfalso].
      destruct Hc as [Hc | [Hc Hrt]].
      - rewrite Hlow in Hc. rewrite <- Hc, Hten in Hdiv. lia.
      - rewrite Hten, Hn, roundTrips_power in Hrt by lia.
        destruct (Hmin 1) as [_ Hhi]; [lia |].
        rewrite lowDigits_integer, Hn in Hhi by lia.
        assert (Hsmall : 10 ^ (21 - k') <= 10 ^ 19) by (apply Z.pow_le_mono_r; lia).
        assert (H9 : Zpos X / 10 ^ (21 - 1) = 9).
        { rewrite Hlow in Hc.
          assert (Hx : 10 ^ 21 - 10 ^ 19 <= Zpos X) by nia.
          change (10 ^ (21 - 1)) with 100000000000000000000.
          change (10 ^ 21) with 1000000000000000000000 in *.
          change (10 ^ 19) with 10000000000000000000 in *.
          symmetry. apply (Z.div_unique _ _ 9 (Zpos X - 900000000000000000000)); lia. }
        rewrite H9 in Hhi. change (9 + 1) with 10 in Hhi. change (21 - 1) with 20 in Hhi.
        congruence. }
    subst k'. rewrite Hn. vm_compute. reflexivity.
  - apply Hplain. lia.
Qed.
End IntegerDigits.

(** ** Reading back the text of [toFixed] *)

Lemma digitsValue_acc (d : Decimal.uint) (acc : positive) :
  fold_left (fun a c => (10 * a + (c - 48))%N) (ofUint d) (Npos acc)
  = Npos (Pos.of_uint_acc d acc).
Proof.
  revert acc. induction d; intros acc; cbn [ofUint fold_left Pos.of_uint_acc];
    [reflexivity | ..];
    match goal with
    | |- fold_left _ _ ?v = Npos (Pos.of_uint_acc _ ?p) =>
        replace v with (Npos p) by lia
    end; apply IHd.
Qed.

Lemma digitsValue_ofUint (d : Decimal.uint) : digitsValue (ofUint d) = Pos.of_uint d.
Proof.
  unfold digitsValue. induction d; cbn [ofUint fold_left Pos.of_uint];
    [reflexivity | exact IHd | ..]; apply digitsValue_acc.
Qed.

Lemma digitsValue_decimal (n : N) : digitsValue (decimal n) = n.
Proof. unfold decimal. rewrite digitsValue_ofUint. apply Unsigned.of_to. Qed.

Lemma digitsValue_zeros (k : Z) (s : jsstring) :
  digitsValue (zeros k ++ s) = digitsValue s.
Proof.
  unfold digitsValue, zeros. rewrite fold_left_app. f_equal.
  induction (Z.to_nat k) as [| j IH]; [reflexivity | exact IH].
Qed.

Lemma isDigit_ofUint (d : Decimal.uint) : Forall (fun c => isDigit c = true) (ofUint d).
Proof. induction d; simpl; constructor; auto. Qed.

Lemma isDigit_zeros (k : Z) : Forall (fun c => isDigit c = true) (zeros k).
Proof. unfold zeros. induction (Z.to_nat k); simpl; constructor; auto. Qed.

Lemma spanDigits_all (ds : jsstring) :
  Forall (fun c => isDigit c = true) ds -> spanDigits ds = (ds, []).
Proof.
  induction 1 as [| c ds Hc _ IH]; simpl; [reflexivity |]. now rewrite Hc, IH.
Qed.

Lemma spanDigits_app (ds : jsstring) (c : N) (rest : jsstring) :
  Forall (fun c => isDigit c = true) ds -> isDigit c = false ->
  spanDigits (ds ++ c :: rest) = (ds, c :: rest).
Proof.
  intros Hds Hc. induction Hds as [| d ds Hd _ IH]; cbn [app spanDigits].
  - now rewrite Hc.
  - now rewrite Hd, IH.
Qed.

(** The digits of [toFixed x 10] are those of the rounded integer, with at
    least one before the point and ten after it. *)
Lemma parseFloat_fixed (neg : bool) (ds : jsstring) :
  Forall (fun c => isDigit c = true) ds ->
  (10 < List.length ds)%nat ->
  let j := (List.length ds - 10)%nat in
  parseFloat ((if neg then js "-" else []) ++ firstn j ds ++ js "." ++ skipn j ds)
  = ofDecimal neg (digitsValue ds) (- 10).
Proof.
  intros Hds Hlen j.
  assert (Hsplit : (firstn j ds ++ skipn j ds)%list = ds) by apply firstn_skipn.
  assert (Hint : Forall (fun c => isDigit c = true) (firstn j ds))
    by (rewrite <- Hsplit in Hds; now apply Forall_app in Hds).
  assert (Hfrac : Forall (fun c => isDigit c = true) (skipn j ds))
    by (rewrite <- Hsplit in Hds; now apply Forall_app in Hds).
  assert (Hfl : List.length (skipn j ds) = 10%nat) by (rewrite length_skipn; unfold j; lia).
  destruct (firstn j ds) as [| d ip] eqn:Hip.
  { apply (f_equal (@List.length N)) in Hip. rewrite length_firstn in Hip.
    unfold j in Hip. simpl in Hip. lia. }
  assert (Hd : isDigit d = true) by now inversion Hint.
  assert (Hrange : (48 <= d <= 57)%N).
  { unfold isDigit in Hd. apply andb_true_iff in Hd. rewrite !N.leb_le in Hd. exact Hd. }
  assert (Hspace : isSpace d = false).
  { unfold isSpace.
    repeat match goal with
           | |- context [(?a <=? ?b)%N] => destruct (N.leb_spec a b)
           | |- context [(?a =? ?b)%N] => destruct (N.eqb_spec a b)
           end; try reflexivity; lia. }
  assert (Hsign : signOf (d :: ip ++ js "." ++ skipn j ds) = (false, d :: ip ++ js "." ++ skipn j ds)%list).
  { unfold signOf. change (chr "-") with 45%N. change (chr "+") with 43%N.
    destruct (N.eqb_spec d 45); [lia |]. destruct (N.eqb_spec d 43); [lia | reflexivity]. }
  assert (Hbody : forall b,
            (let '(neg0, s) := (b, (d :: ip ++ js "." ++ skipn j ds)%list) in
             if startsWith (js "Infinity") s then S754_infinity neg0
             else
               let '(ip0, s1) := spanDigits s in
               let '(fp, s2) :=
                 match s1 with
                 | c :: s1' => if N.eqb c (chr ".") then spanDigits s1' else ([], s1)
                 | [] => ([], [])
                 end in
               match (ip0 ++ fp)%list with
               | [] => NaN
               | ds0 => ofDecimal neg0 (digitsValue ds0)
                          (exponentOf s2 - Z.of_nat (List.length fp))
               end) = ofDecimal b (digitsValue ds) (- 10)).
  { intros b. cbv beta iota zeta.
    replace (startsWith (js "Infinity") (d :: ip ++ js "." ++ skipn j ds)) with false.
    2:{ change (js "Infinity") with (73%N :: js "nfinity"). cbn [startsWith].
        destruct (N.eqb_spec 73 d); [lia | reflexivity]. }
    change (d :: ip ++ js "." ++ skipn j ds)%list
      with ((d :: ip) ++ 46%N :: skipn j ds)%list.
    rewrite (spanDigits_app (d :: ip) 46 (skipn j ds) Hint eq_refl).
    change (N.eqb 46 (chr ".")) with true. cbv iota.
    rewrite (spanDigits_all _ Hfrac), Hsplit, Hfl.
    destruct ds as [| d0 ds0]; [simpl in Hlen; lia |]. reflexivity. }
  unfold parseFloat. destruct neg.
  - change (js "-" ++ (d :: ip) ++ js "." ++ skipn j ds)%list
      with (45%N :: d :: ip ++ js "." ++ skipn j ds)%list.
    change (trimStart (45%N :: d :: ip ++ js "." ++ skipn j ds)%list)
      with (45%N :: d :: ip ++ js "." ++ skipn j ds)%list.
    change (signOf (45%N :: d :: ip ++ js "." ++ skipn j ds)%list)
      with (true, (d :: ip ++ js "." ++ skipn j ds)%list).
    apply (Hbody true).
  - change ([] ++ (d :: ip) ++ js "." ++ skipn j ds)%list
      with (d :: ip ++ js "." ++ skipn j ds)%list.
    cbn [trimStart]. rewrite Hspace, Hsign. apply (Hbody false).
Qed.

Lemma parseFloat_toFixed (x : number) :
  isFinite x = true -> integerPart x < 10 ^ 21 ->
  parseFloat (toFixed x 10) = roundFixed x 10.
Proof.
  destruct x as [s | s | | s m e]; try discriminate; intros _ Hbound.
  - vm_compute. reflexivity.
  - unfold integerPart in Hbound. unfold toFixed, roundFixed. cbv zeta.
    replace (10 ^ 21 <=? floorR (exact m e)) with false by (symmetry; apply Z.leb_gt; exact Hbound).
    change (10 =? 0) with false. cbv iota.
    set (m0 := decimal (Z.to_N (fixedInteger (exact m e) 10))).
    set (m1 := if Z.of_nat (List.length m0) <=? 10
               then (zeros (10 + 1 - Z.of_nat (List.length m0)) ++ m0)%list else m0).
    assert (Hdigits : Forall (fun c => isDigit c = true) m1).
    { unfold m1. destruct (_ <=? 10); [apply Forall_app; split |];
        try apply isDigit_zeros; apply isDigit_ofUint. }
    assert (Hlen : (10 < List.length m1)%nat).
    { unfold m1. destruct (Z.of_nat (List.length m0) <=? 10) eqn:Hk.
      - apply Z.leb_le in Hk. unfold zeros. rewrite length_app, repeat_length. lia.
      - apply Z.leb_gt in Hk. lia. }
    assert (Hvalue : digitsValue m1 = Z.to_N (fixedInteger (exact m e) 10)).
    { unfold m1. destruct (_ <=? 10); [rewrite digitsValue_zeros |]; apply digitsValue_decimal. }
    replace (Z.to_nat (Z.of_nat (List.length m1) - 10)) with (List.length m1 - 10)%nat by lia.
    pose proof (parseFloat_fixed s m1 Hdigits Hlen) as H. cbv zeta in H.
    rewrite Hvalue in H. exact H.
Qed.

(** A binary64 value that is not an integer is below 2^53. *)
Lemma digits2_pos_bound (m : positive) : Zpos m < 2 ^ Zpos (digits2_pos m).
Proof.
  induction m as [m IH | m IH |]; cbn [digits2_pos]; [| | reflexivity];
    rewrite Pos2Z.inj_succ, Z.pow_succ_r by lia; lia.
Qed.

Lemma integerPart_nonInteger (x : number) :
  valid_binary prec emax x = true -> isInteger x = false -> integerPart x < 10 ^ 21.
Proof.
  destruct x as [s | s | | s m e]; try reflexivity.
  unfold valid_binary, bounded, canonical_mantissa, fexp, SpecFloat.emin, isInteger, integerPart.
  intros Hvalid Hint. apply andb_true_iff in Hvalid. destruct Hvalid as [Hcanon _].
  apply Z.eqb_eq in Hcanon. apply orb_false_iff in Hint. destruct Hint as [He _].
  apply Z.leb_gt in He.
  assert (Hd : Zpos (digits2_pos m) <= 53) by (unfold prec in Hcanon; lia).
  pose proof (digits2_pos_bound m) as Hm.
  assert (Hm53 : Zpos m < 2 ^ 53).
  { apply (Z.lt_le_trans _ _ _ Hm). apply Z.pow_le_mono_r; lia. }
  unfold exact. replace (0 <=? e) with false by (symmetry; apply Z.leb_gt; exact He).
  unfold floorR. cbn [fst snd].
  set (g := Z.gcd (Zpos m) (2 ^ (- e))).
  assert (Hpow : 0 < 2 ^ (- e)) by (apply Z.pow_pos_nonneg; lia).
  assert (Hg : 0 < g).
  { pose proof (Z.gcd_nonneg (Zpos m) (2 ^ (- e))) as H0.
    destruct (Z.eq_dec g 0) as [H | H]; [| unfold g in *; lia].
    apply Z.gcd_eq_0_l in H. discriminate. }
  assert (Hnum : 0 < Zpos m / g).
  { apply Z.div_str_pos. split; [exact Hg |].
    apply Z.divide_pos_le; [lia | apply Z.gcd_divide_l]. }
  rewrite Z2Pos.id by exact Hnum.
  assert (Hle1 : Zpos m / g <= Zpos m) by (apply Z.div_le_upper_bound; nia).
  assert (Hle2 : Zpos m / g / Zpos (Z.to_pos (2 ^ (- e) / g)) <= Zpos m / g)
    by (apply Z.div_le_upper_bound; nia).
  change (2 ^ 53) with 9007199254740992 in Hm53.
  change (10 ^ 21) with 1000000000000000000000. lia.
Qed.

(** An integer below 10^21 in magnitude is written without a decimal
    point. *)
Lemma toString_integer (x : number) :
  isInteger x = true -> integerPart x < 10 ^ 21 ->
  includes (chr ".") (toString x) = false.
Proof.
  destruct x as [s | s | | s m e]; try discriminate; [reflexivity |].
  intros Hint Hbound. apply includes_count.
  pose proof (exact_integer s m e Hint) as Hden.
  unfold integerPart in Hbound. unfold toString.
  destruct (exact m e) as [X q]. cbn [snd] in Hden. subst q.
  unfold floorR in Hbound. cbn [fst snd] in Hbound. rewrite Z.div_1_r in Hbound.
  unfold decimalExponent. replace (1 <=? X)%positive with true
    by (symmetry; apply Pos.leb_le, Pos.le_1_l).
  rewrite Z.div_1_r, count_app, (shortest_integer X Hbound).
  now destruct s.
Qed.

(** C6, as the code has it: after a successful evaluation with the finite
    Number [x], [current] is the text of [x] when [x] is an integer, which
    has no decimal point as long as the magnitude is below 10^21 (from
    there on the text is in exponent notation); when [x] is not an integer,
    [current] is the text of the Number read back from [x.toFixed(10)],
    which is the Number nearest to [x] rounded to 10 fraction digits (for a
    magnitude below 10^21, as every Number that is not an integer has).
    Evaluating "10/3" gives "3.3333333333". *)
Theorem evaluateExpression_formats_result (st : calculator) (x : number) :
  safeEval (normalizeVisual (history st ++ current st)) = Some (Returns (VNumber x)) ->
  isFinite x = true ->
  exists st', evaluateExpression st = Some st'
    /\ history st' = (normalizeVisual (history st ++ current st) ++ js " =")%list
    /\ consumedResult st' = true
    /\ (isInteger x = true ->
        current st' = toString x
        /\ (integerPart x < 10 ^ 21 -> includes (chr ".") (current st') = false))
    /\ (isInteger x = false ->
        current st' = toString (parseFloat (toFixed x 10))
        /\ (integerPart x < 10 ^ 21 -> current st' = toString (roundFixed x 10)))
    /\ (normalizeVisual (history st ++ current st) = js "10/3" ->
        current st' = js "3.3333333333").
Proof.
  intros Heval Hfin. unfold evaluateExpression, evaluateBody.
  destruct (normalizeVisual (history st ++ current st)) as [| c expr] eqn:Hnorm;
    [vm_compute in Heval; discriminate |].
  rewrite Heval. cbn [bind toNumber]. rewrite Hfin. cbn [negb].
  eexists. split; [reflexivity |].
  cbn [current history consumedResult refreshDisplay setConsumedResult setCurrent setHistory].
  split; [reflexivity |]. split; [reflexivity |].
  unfold formatResult. split; [| split].
  - intros Hint. rewrite Hint. split; [reflexivity |]. now apply toString_integer.
  - intros Hint. rewrite Hint. split; [reflexivity |].
    intros Hbound. now rewrite parseFloat_toFixed.
  - intros H103. rewrite H103 in Heval. vm_compute in Heval. injection Heval as <-.
    vm_compute. reflexivity.
Qed.

Lemma evaluateExpression_formats_result_witness :
  let st := setCurrent (js "3") (setHistory (js "10/") initial) in
  let x := divide (ofDecimal false 10 0) (ofDecimal false 3 0) in
  exists st', evaluateExpression st = Some st'
    /\ history st' = (normalizeVisual (history st ++ current st) ++ js " =")%list
    /\ consumedResult st' = true
    /\ (isInteger x = true ->
        current st' = toString x
        /\ (integerPart x < 10 ^ 21 -> includes (chr ".") (current st') = false))
    /\ (isInteger x = false ->
        current st' = toString (parseFloat (toFixed x 10))
        /\ (integerPart x < 10 ^ 21 -> current st' = toString (roundFixed x 10)))
    /\ (normalizeVisual (history st ++ current st) = js "10/3" ->
        current st' = js "3.3333333333").
Proof.
  intros st x. apply (evaluateExpression_formats_result st x).
  - vm_compute. reflexivity.
  - vm_compute. reflexivity.
Defined.

(** The integer 1500000000000000000000, typed and evaluated, is shown as
    "1.5e+21": an integer value, with a decimal point. *)
Lemma evaluateExpression_large_integer_point :
  let st := refreshDisplay (setCurrent (js "1500000000000000000000") initial) in
  let x := ofDecimal false 1500000000000000000000 0 in
  reachable st
  /\ safeEval (normalizeVisual (history st ++ current st)) = Some (Returns (VNumber x))
  /\ isFinite x = true
  /\ isInteger x = true
  /\ exists st', evaluateExpression st = Some st'
       /\ current st' = js "1.5e+21"
       /\ includes (chr ".") (current st') = true.
Proof.
  intros st x. split; [| split; [| split; [| split]]].
  - apply (reachable_run
             (map Digit (js "1" :: js "5" :: repeat (js "0") 20)) initial).
    + constructor.
    + cbn [map repeat]. valid_actions.
    + vm_compute. reflexivity.
  - vm_compute. reflexivity.
  - reflexivity.
  - vm_compute. reflexivity.
  - eexists. split; [vm_compute; reflexivity |]. split; reflexivity.
Qed.

(** * Further properties of the script *)

Import Page.

(** ** Normalisation *)

Lemma trimStart_head (s : jsstring) (c : N) (t : jsstring) :
  trimStart s = c :: t -> isSpace c = false.
Proof.
  induction s as [| x s IH]; simpl; [discriminate |].
  destruct (isSpace x) eqn:Hx; [exact IH |].
  intros H. injection H as <- _. exact Hx.
Qed.

Lemma trimStart_fixed (c : N) (t : jsstring) :
  isSpace c = false -> trimStart (c :: t) = c :: t.
Proof. intros H. simpl. now rewrite H. Qed.

Lemma trimStart_idempotent (s : jsstring) : trimStart (trimStart s) = trimStart s.
Proof.
  destruct (trimStart s) as [| c t] eqn:H; [reflexivity |].
  apply trimStart_fixed. now apply (trimStart_head s c t).
Qed.

Lemma trimStart_snoc (u : jsstring) (c : N) :
  isSpace c = false -> trimStart (u ++ [c]) = (trimStart u ++ [c])%list.
Proof.
  intros Hc. induction u as [| x u IH]; simpl; [now rewrite Hc |].
  destruct (isSpace x); [exact IH | reflexivity].
Qed.

Lemma trim_idempotent (s : jsstring) : trim (trim s) = trim s.
Proof.
  unfold trim. destruct (trimStart s) as [| c t] eqn:H; [reflexivity |].
  pose proof (trimStart_head s c t H) as Hc.
  cbn [rev]. rewrite (trimStart_snoc (rev t) c Hc), rev_app_distr. cbn [rev app].
  rewrite (trimStart_fixed c _ Hc). cbn [rev].
  rewrite rev_involutive, (trimStart_snoc _ c Hc), trimStart_idempotent, rev_app_distr.
  reflexivity.
Qed.

Lemma In_trimStart (c : N) (s : jsstring) : In c (trimStart s) -> In c s.
Proof.
  induction s as [| x s IH]; simpl; [tauto |].
  destruct (isSpace x); [intros H; right; now apply IH | simpl; tauto].
Qed.

Lemma In_trim (c : N) (s : jsstring) : In c (trim s) -> In c s.
Proof.
  unfold trim. intros H. apply in_rev, In_trimStart, in_rev in H. now apply In_trimStart.
Qed.

(** A character that is not white space survives [trim]. *)
Lemma trimStart_keeps (c : N) (s : jsstring) :
  isSpace c = false -> In c s -> In c (trimStart s).
Proof.
  intros Hc. induction s as [| x s IH]; simpl; [tauto |].
  destruct (isSpace x) eqn:Hx; [| simpl; tauto].
  intros [-> | H]; [congruence | now apply IH].
Qed.

Lemma trim_keeps (c : N) (s : jsstring) : isSpace c = false -> In c s -> In c (trim s).
Proof.
  intros Hc H. unfold trim.
  apply in_rev. rewrite rev_involutive.
  apply (trimStart_keeps c _ Hc), in_rev. rewrite rev_involutive.
  now apply trimStart_keeps.
Qed.

(** The three replacements of [normalizeVisual], character by character. *)
Lemma replaceAll_space (c d : N) (s : jsstring) :
  isSpace c = false -> isSpace d = false ->
  map isSpace (replaceAll c d s) = map isSpace s.
Proof.
  intros Hc Hd. unfold replaceAll. rewrite map_map. apply map_ext. intros x.
  destruct (N.eqb_spec x c) as [-> | _]; congruence.
Qed.

Lemma trimStart_replaceAll (c d : N) (s : jsstring) :
  isSpace c = false -> isSpace d = false ->
  trimStart (replaceAll c d s) = replaceAll c d (trimStart s).
Proof.
  intros Hc Hd. unfold replaceAll. induction s as [| x s IH]; [reflexivity |].
  cbn [map trimStart]. destruct (N.eqb x c) eqn:Hx.
  - apply N.eqb_eq in Hx. subst x. rewrite Hd, Hc. cbn [map]. now rewrite N.eqb_refl.
  - destruct (isSpace x); [exact IH |]. cbn [map]. now rewrite Hx.
Qed.

Lemma trim_replaceAll (c d : N) (s : jsstring) :
  isSpace c = false -> isSpace d = false ->
  trim (replaceAll c d s) = replaceAll c d (trim s).
Proof.
  intros Hc Hd. unfold trim.
  rewrite (trimStart_replaceAll c d s Hc Hd).
  unfold replaceAll at 1. rewrite <- map_rev. fold (replaceAll c d (rev (trimStart s))).
  rewrite (trimStart_replaceAll c d _ Hc Hd).
  unfold replaceAll. now rewrite map_rev.
Qed.

Lemma stripSpaces_replaceAll (c d : N) (s : jsstring) :
  isSpace c = false -> isSpace d = false ->
  stripSpaces (replaceAll c d s) = replaceAll c d (stripSpaces s).
Proof.
  intros Hc Hd. unfold stripSpaces, replaceAll.
  induction s as [| x s IH]; [reflexivity |].
  cbn [map filter]. destruct (N.eqb x c) eqn:Hx.
  - apply N.eqb_eq in Hx. subst x. rewrite Hd, Hc. cbn [negb map]. now rewrite N.eqb_refl, IH.
  - destruct (isSpace x); cbn [negb map]; [exact IH | now rewrite Hx, IH].
Qed.

(** The signs replaced, as one function on characters. *)
Lemma replaceAll_signs (s : jsstring) :
  replaceAll 8722 (chr "-") (replaceAll 247 (chr "/") (replaceAll 215 (chr "*") s))
  = map (fun x => if N.eqb x 215 then chr "*"
                  else if N.eqb x 247 then chr "/"
                  else if N.eqb x 8722 then chr "-" else x) s.
Proof.
  unfold replaceAll. rewrite !map_map. apply map_ext. intros x.
  destruct (N.eqb_spec x 215) as [-> | H1]; [reflexivity |].
  destruct (N.eqb_spec x 247) as [-> | H2]; [reflexivity |].
  reflexivity.
Qed.

Lemma normalizeVisual_trim (s : jsstring) :
  normalizeVisual (trim s) = normalizeVisual s.
Proof.
  unfold normalizeVisual.
  rewrite <- !trim_replaceAll by reflexivity. apply trim_idempotent.
Qed.

Lemma stripSpaces_normalizeVisual (s : jsstring) :
  stripSpaces (normalizeVisual s)
  = replaceAll 8722 (chr "-") (replaceAll 247 (chr "/") (replaceAll 215 (chr "*") (stripSpaces s))).
Proof.
  unfold normalizeVisual. rewrite stripSpaces_trim.
  now rewrite !stripSpaces_replaceAll by reflexivity.
Qed.

Lemma normalizeVisual_idempotent (s : jsstring) :
  normalizeVisual (normalizeVisual s) = normalizeVisual s.
Proof.
  unfold normalizeVisual at 2. rewrite normalizeVisual_trim.
  unfold normalizeVisual. f_equal. rewrite !replaceAll_signs, map_map.
  apply map_ext. intros x.
  destruct (N.eqb_spec x 215) as [-> | H1]; [reflexivity |].
  destruct (N.eqb_spec x 247) as [-> | H2]; [reflexivity |].
  destruct (N.eqb_spec x 8722) as [-> | H3]; [reflexivity |].
  destruct (N.eqb_spec x 215); [contradiction |].
  destruct (N.eqb_spec x 247); [contradiction |].
  destruct (N.eqb_spec x 8722); [contradiction | reflexivity].
Qed.

(** X1: [normalizeVisual] is idempotent, its result has no white space at
    either end, and none of the three signs it replaces is left in it. *)
Theorem normalizeVisual_normal (s : jsstring) :
  normalizeVisual (normalizeVisual s) = normalizeVisual s
  /\ trim (normalizeVisual s) = normalizeVisual s
  /\ forall c, In c (normalizeVisual s) -> c <> 215%N /\ c <> 247%N /\ c <> 8722%N.
Proof.
  split; [| split].
  - apply normalizeVisual_idempotent.
  - unfold normalizeVisual. apply trim_idempotent.
  - intros c Hc. unfold normalizeVisual in Hc. apply In_trim in Hc.
    rewrite replaceAll_signs in Hc. apply in_map_iff in Hc. destruct Hc as [x [Hx _]].
    destruct (N.eqb_spec x 215); [subst c; repeat split; discriminate |].
    destruct (N.eqb_spec x 247); [subst c; repeat split; discriminate |].
    destruct (N.eqb_spec x 8722); [subst c; repeat split; discriminate |].
    subst c. repeat split; assumption.
Qed.

(** ** More on [safeEval] *)

Lemma stripSpaces_spaces (w : jsstring) :
  Forall (fun c => isSpace c = true) w -> stripSpaces w = [].
Proof.
  unfold stripSpaces. induction 1 as [| c w Hc _ IH]; simpl; [reflexivity |].
  now rewrite Hc.
Qed.

Lemma stripSpaces_app (a b : jsstring) :
  stripSpaces (a ++ b) = (stripSpaces a ++ stripSpaces b)%list.
Proof. unfold stripSpaces. apply filter_app. Qed.

(** [safeEvalWith] looks at the expression only through its normalised form
    without white space. *)
Lemma safeEvalWith_stripped (host : jsstring -> option (completion value)) (a b : jsstring) :
  stripSpaces (normalizeVisual a) = stripSpaces (normalizeVisual b) ->
  safeEvalWith host a = safeEvalWith host b.
Proof. intros H. unfold safeEvalWith. now rewrite H. Qed.

(** X2: white space anywhere in an expression is ignored by [safeEval], and
    so is a normalisation done beforehand (as [evaluateExpression] does):
    for every host evaluator the result is the same. *)
Theorem safeEval_ignores_spaces
  (host : jsstring -> option (completion value)) (a w b : jsstring) :
  Forall (fun c => isSpace c = true) w ->
  safeEvalWith host (a ++ w ++ b) = safeEvalWith host (a ++ b)
  /\ safeEvalWith host (normalizeVisual (a ++ w ++ b)) = safeEvalWith host (a ++ b).
Proof.
  intros Hw.
  assert (H : stripSpaces (normalizeVisual (a ++ w ++ b))
              = stripSpaces (normalizeVisual (a ++ b))).
  { rewrite !stripSpaces_normalizeVisual, !stripSpaces_app, (stripSpaces_spaces w Hw).
    reflexivity. }
  split; apply safeEvalWith_stripped; [exact H |].
  now rewrite normalizeVisual_idempotent.
Qed.

Lemma safeEval_ignores_spaces_witness :
  safeEvalWith callFunction (js "2" ++ js "  " ++ js "+3") = safeEvalWith callFunction (js "2" ++ js "+3")
  /\ safeEvalWith callFunction (normalizeVisual (js "2" ++ js "  " ++ js "+3"))
     = safeEvalWith callFunction (js "2" ++ js "+3").
Proof.
  apply (safeEval_ignores_spaces callFunction (js "2") (js "  ") (js "+3")).
  repeat constructor.
Defined.

Lemma hasInvalidChar_false (e : jsstring) :
  hasInvalidChar e = false <-> forallb allowedChar e = true.
Proof.
  unfold hasInvalidChar. induction e as [| c e IH]; simpl; [tauto |].
  rewrite orb_false_iff, andb_true_iff, negb_false_iff, IH. tauto.
Qed.

(** X3: [safeEval] hands the host evaluator nothing but strings of at most
    180 characters, all of them from the whitelist: two hosts that agree on
    such strings give the same result for every expression. *)
Theorem safeEval_host_input
  (host1 host2 : jsstring -> option (completion value)) (expr : jsstring) :
  (forall s, forallb allowedChar s = true -> (List.length s <= 180)%nat -> host1 s = host2 s) ->
  safeEvalWith host1 expr = safeEvalWith host2 expr.
Proof.
  intros Hagree. unfold safeEvalWith.
  destruct (hasInvalidChar _) eqn:Hchars; [reflexivity |].
  destruct (_ && _); [reflexivity |].
  destruct (_ <? _)%nat eqn:Hlen; [reflexivity |].
  apply Hagree; [now apply hasInvalidChar_false | now apply Nat.ltb_ge].
Qed.

Lemma safeEval_host_input_witness :
  safeEvalWith callFunction (js "2+3")
  = safeEvalWith
      (fun s => if forallb allowedChar s && (List.length s <=? 180)%nat
                then callFunction s else None)
      (js "2+3").
Proof.
  apply (safeEval_host_input callFunction
           (fun s => if forallb allowedChar s && (List.length s <=? 180)%nat
                     then callFunction s else None) (js "2+3")).
  intros s Hs Hlen. apply Nat.leb_le in Hlen. now rewrite Hs, Hlen.
Defined.

Lemma safeEval_invalid (expr : jsstring) (c : N) :
  In c (stripSpaces (normalizeVisual expr)) -> allowedChar c = false ->
  safeEval expr = Some (Throws (Error "Invalid characters in expression")).
Proof.
  intros Hin Hc. unfold safeEval, safeEvalWith.
  replace (hasInvalidChar (stripSpaces (normalizeVisual expr))) with true; [reflexivity |].
  symmetry. unfold hasInvalidChar. apply existsb_exists. exists c.
  split; [exact Hin | now rewrite Hc].
Qed.

(** X4: which of its own errors [safeEval] reports.  "Invalid characters"
    exactly when some character left after normalisation is outside the
    whitelist, whatever else is wrong; "Expression too long" exactly when
    all characters are allowed, the operator-run check passes and more
    than 180 characters are left. *)
Theorem safeEval_error_kinds (expr : jsstring) :
  (safeEval expr = Some (Throws (Error "Invalid characters in expression"))
   <-> exists c, In c (stripSpaces (normalizeVisual expr)) /\ allowedChar c = false)
  /\ (safeEval expr = Some (Throws (Error "Expression too long"))
      <-> (forall c, In c (stripSpaces (normalizeVisual expr)) -> allowedChar c = true)
          /\ (hasOperatorRun (stripSpaces (normalizeVisual expr)) = false
              \/ hasUnaryMinus (stripSpaces (normalizeVisual expr)) = true)
          /\ (180 < List.length (stripSpaces (normalizeVisual expr)))%nat).
Proof.
  unfold safeEval, safeEvalWith.
  set (e := stripSpaces (normalizeVisual expr)).
  assert (Hinv : hasInvalidChar e = true <-> exists c, In c e /\ allowedChar c = false).
  { unfold hasInvalidChar. rewrite existsb_exists.
    split; intros [c [Hin Hc]]; exists c; split; try assumption;
      [now apply negb_true_iff in Hc | now apply negb_true_iff]. }
  assert (Hall : hasInvalidChar e = false <-> forall c, In c e -> allowedChar c = true).
  { rewrite hasInvalidChar_false. apply forallb_forall. }
  destruct (hasInvalidChar e) eqn:Hchars.
  - split.
    + split; [intros _; now apply Hinv | reflexivity].
    + split; [discriminate |]. intros [H _]. apply Hall in H. discriminate.
  - assert (Hno : ~ exists c, In c e /\ allowedChar c = false)
      by (intros H; apply Hinv in H; discriminate).
    assert (Hyes : forall c, In c e -> allowedChar c = true) by now apply Hall.
    assert (Hleaf : forall r : option (completion value),
              (r = Some (Throws (Error "Expression too long")) <-> (180 < List.length e)%nat) ->
              r <> Some (Throws (Error "Invalid characters in expression")) ->
              hasOperatorRun e = false \/ hasUnaryMinus e = true ->
              (r = Some (Throws (Error "Invalid characters in expression"))
               <-> exists c, In c e /\ allowedChar c = false)
              /\ (r = Some (Throws (Error "Expression too long"))
                  <-> (forall c, In c e -> allowedChar c = true)
                      /\ (hasOperatorRun e = false \/ hasUnaryMinus e = true)
                      /\ (180 < List.length e)%nat)).
    { intros r Hr Hnot Hpass. split; [split; [intros H | intros H]; contradiction |].
      rewrite Hr. tauto. }
    assert (Hlong : forall r : option (completion value),
              ((if (180 <? List.length e)%nat
                then Some (Throws (Error "Expression too long")) else callFunction e)
               = Some (Throws (Error "Expression too long")) <-> (180 < List.length e)%nat)
              /\ (if (180 <? List.length e)%nat
                  then Some (Throws (Error "Expression too long")) else callFunction e)
                 <> Some (Throws (Error "Invalid characters in expression"))).
    { intros _. destruct (180 <? List.length e)%nat eqn:Hlen.
      - apply Nat.ltb_lt in Hlen. split; [tauto | discriminate].
      - apply Nat.ltb_ge in Hlen. split; [| apply callFunction_no_Error].
        split; [intros H; now apply callFunction_no_Error in H | lia]. }
    destruct (Hlong None) as [Hl1 Hl2].
    destruct (hasOperatorRun e) eqn:Hrun; destruct (hasUnaryMinus e) eqn:Hminus;
      cbn [andb negb]; try (apply Hleaf; [exact Hl1 | exact Hl2 | tauto]).
    split; split; try discriminate; try contradiction.
    intros (_ & [H | H] & _); discriminate.
Qed.

(** ** What the actions can do to the state *)

Lemma doPercent_cases (st st' : calculator) :
  doPercent st = Some st' ->
  st' = showError st \/ exists x, st' = refreshDisplay (setCurrent (toString x) st).
Proof.
  unfold doPercent, percentBody.
  destruct (safeEval (current st)) as [[val | e] |]; cbn [bind]; [| | discriminate].
  - intros H; injection H as <-. right. now eexists.
  - intros H; injection H as <-. now left.
Qed.

Lemma formatResult_toString (x : number) : exists y, formatResult x = toString y.
Proof. unfold formatResult. destruct (isInteger x); now eexists. Qed.

Lemma evaluateExpression_cases (st st' : calculator) :
  evaluateExpression st = Some st' ->
  st' = st \/ st' = showError st
  \/ exists y,
       st' = refreshDisplay
               (setConsumedResult true
                  (setCurrent (toString y)
                     (setHistory (normalizeVisual (history st ++ current st) ++ js " =")%list st))).
Proof.
  unfold evaluateExpression, evaluateBody.
  destruct (normalizeVisual (history st ++ current st)) as [| c expr].
  - intros H; injection H as <-. now left.
  - destruct (safeEval (c :: expr)) as [[result | e] |]; cbn [bind]; [| | discriminate].
    + destruct (isFinite (toNumber result)); cbn [negb].
      * destruct (formatResult_toString (toNumber result)) as [y Hy]. rewrite Hy.
        intros H; injection H as <-. right. right. now exists y.
      * intros H; injection H as <-. right. now left.
    + intros H; injection H as <-. right. now left.
Qed.

Lemma errorTimeout_cases (st st' : calculator) :
  errorTimeout st = Some st' ->
  exists n, errorTimers st = S n
    /\ st' = {| current := js "0"; history := history st;
                consumedResult := consumedResult st;
                currentEl := js "0"; historyEl := history st; errorTimers := n |}.
Proof.
  unfold errorTimeout. destruct (errorTimers st) as [| n]; [discriminate |].
  intros H; injection H as <-. now exists n.
Qed.

(** ** The text of [current] *)

Lemma decimal_head (n : N) : exists c rest, decimal n = c :: rest /\ isDigit c = true.
Proof.
  pose proof (isDigit_ofUint (N.to_uint n)) as Hd. unfold decimal.
  destruct (ofUint (N.to_uint n)) as [| c rest] eqn:H.
  - exfalso. destruct n as [| p]; [discriminate |].
    apply (DecimalPos.Unsigned.to_uint_nonnil p).
    cbn [N.to_uint] in H. destruct (Pos.to_uint p); [reflexivity | discriminate ..].
  - exists c, rest. split; [reflexivity | now inversion Hd].
Qed.

Lemma render_head (snk : Z * Z * Z) :
  exists c rest, render snk = c :: rest /\ isDigit c = true.
Proof.
  destruct snk as [[s n] k]. unfold render. cbv zeta.
  destruct (decimal_head (Z.to_N s)) as [c [rest [Hds Hc]]]. rewrite Hds.
  destruct ((k <=? n) && (n <=? 21)); [exists c; eexists; split; [reflexivity | exact Hc] |].
  destruct ((0 <? n) && (n <=? 21)) eqn:Hn.
  - apply andb_true_iff in Hn. destruct Hn as [Hn _]. apply Z.ltb_lt in Hn.
    destruct (Z.to_nat n) as [| j] eqn:Hj; [lia |]. cbn [firstn app].
    exists c; eexists; split; [reflexivity | exact Hc].
  - destruct ((-6 <? n) && (n <=? 0)); [exists 48%N; eexists; split; reflexivity |].
    destruct (k =? 1); exists c; eexists; (split; [reflexivity | exact Hc]).
Qed.

(** The text of a Number is not empty and starts with a digit, a minus
    sign or a letter. *)
Lemma toString_head (x : number) :
  exists c rest, toString x = c :: rest /\ c <> chr ".".
Proof.
  destruct x as [s | s | | s m e]; unfold toString.
  - now exists 48%N, [].
  - destruct s; [exists 45%N | exists 73%N]; eexists; split; try reflexivity; discriminate.
  - exists 78%N. eexists. split; [reflexivity | discriminate].
  - destruct s.
    + exists 45%N. eexists. split; [reflexivity | discriminate].
    + destruct (render_head (shortest 17 1 (exact m e) (decimalExponent (exact m e))))
        as [c [rest [Hr Hc]]].
      rewrite Hr. exists c, rest. split; [reflexivity |]. intros ->. discriminate.
Qed.

Lemma dropLast_head (c : N) (rest : jsstring) :
  (1 < List.length (c :: rest))%nat -> exists rest', dropLast (c :: rest) = c :: rest'.
Proof.
  destruct rest as [| d rest]; simpl; [lia |]. intros _. now eexists.
Qed.

Lemma step_head (a : action) (st st' : calculator) :
  validAction a -> step a st = Some st' ->
  (exists c rest, current st = c :: rest /\ c <> chr ".") ->
  exists c rest, current st' = c :: rest /\ c <> chr ".".
Proof.
  intros Hv Hstep (c & rest & Hcur & Hc).
  assert (Hzero : exists c rest, js "0" = c :: rest /\ c <> chr ".")
    by (exists 48%N, []; split; [reflexivity | discriminate]).
  destruct a; cbn [step validAction] in *.
  - injection Hstep as <-. unfold appendDigit. destruct Hv as [-> | [x [-> Hx]]].
    + change (JSString.eqb (js ".") (js ".")) with true. rewrite andb_false_r. cbn [andb].
      destruct (consumedResult st); cbn [current refreshDisplay setCurrent setConsumedResult].
      * exists 48%N. eexists. split; [reflexivity | discriminate].
      * destruct (includes _ _); cbn [current refreshDisplay setCurrent].
        -- now exists c, rest.
        -- rewrite Hcur. exists c. eexists. split; [reflexivity | exact Hc].
    + assert (Hne : x <> chr ".") by (intros ->; discriminate).
      assert (Heq : JSString.eqb [x] (js ".") = false).
      { destruct (JSString.eqb [x] (js ".")) eqn:H; [| reflexivity].
        apply eqb_eq in H. injection H as ->. contradiction. }
      rewrite Heq. cbn [andb negb].
      destruct (consumedResult st); cbn [current refreshDisplay setCurrent setConsumedResult].
      * now exists x, [].
      * rewrite andb_true_r.
        destruct (JSString.eqb (current st) (js "0")); cbn [current refreshDisplay setCurrent].
        -- now exists x, [].
        -- rewrite Hcur. exists c. eexists. split; [reflexivity | exact Hc].
  - injection Hstep as <-. unfold applyOperator.
    destruct (consumedResult st); exact Hzero.
  - apply doPercent_cases in Hstep. destruct Hstep as [-> | [x ->]].
    + now exists c, rest.
    + apply toString_head.
  - injection Hstep as <-. unfold backspace.
    destruct (consumedResult st); [exact Hzero |].
    cbn [current refreshDisplay setCurrent].
    destruct (_ <=? 1)%nat eqn:Hlen; [exact Hzero |].
    apply Nat.leb_gt in Hlen. rewrite Hcur in *.
    destruct (dropLast_head c rest Hlen) as [rest' ->]. now exists c, rest'.
  - injection Hstep as <-. exact Hzero.
  - apply evaluateExpression_cases in Hstep. destruct Hstep as [-> | [-> | [y ->]]].
    + now exists c, rest.
    + now exists c, rest.
    + apply toString_head.
  - apply errorTimeout_cases in Hstep. destruct Hstep as [n [_ ->]]. exact Hzero.
Qed.

(** X5: in every reachable state [current] is not empty and does not start
    with a decimal point: the display always shows something, and a number
    typed as ".5" is kept as "0.5". *)
Theorem reachable_current_head (st : calculator) :
  reachable st -> exists c rest, current st = c :: rest /\ c <> chr ".".
Proof.
  induction 1 as [| a st st' _ IH Hv Hstep].
  - exists 48%N, []. split; [reflexivity | discriminate].
  - now apply (step_head a st st').
Qed.

Lemma reachable_current_head_witness :
  exists c rest,
    current (appendDigit (js "5") (appendDigit (js ".") initial)) = c :: rest /\ c <> chr ".".
Proof.
  apply (reachable_current_head (appendDigit (js "5") (appendDigit (js ".") initial))).
  apply (reachable_run [Digit (js "."); Digit (js "5")] initial).
  - constructor.
  - valid_actions.
  - reflexivity.
Defined.

(** ** Backspace *)

(** X6: [backspace] undoes the digit input before it.  With
    [consumedResult] false and [current] not empty, typing a digit, or a
    "." that [current] does not have yet, and then pressing backspace
    gives back the state, display refreshed. *)
Theorem backspace_appendDigit (d : jsstring) (st : calculator) :
  consumedResult st = false ->
  current st <> [] ->
  isDigitInput d ->
  (d = js "." -> includes (chr ".") (current st) = false) ->
  backspace (appendDigit d st) = refreshDisplay st.
Proof.
  intros Hflag Hne Hd Hpoint.
  assert (Hlong : forall c, (List.length (current st ++ [c]) <=? 1)%nat = false).
  { intros c. apply Nat.leb_gt. rewrite length_app. simpl.
    destruct (current st); [contradiction | simpl; lia]. }
  unfold appendDigit. rewrite Hflag. destruct Hd as [-> | [c [-> Hc]]].
  - rewrite (Hpoint eq_refl). change (JSString.eqb (js ".") (js ".")) with true.
    rewrite andb_false_r. cbn [andb negb].
    unfold backspace. cbn [consumedResult current refreshDisplay setCurrent]. rewrite Hflag.
    change (js ".") with [46%N]. rewrite Hlong, dropLast_snoc.
    unfold refreshDisplay, setCurrent. reflexivity.
  - assert (Heq : JSString.eqb [c] (js ".") = false).
    { destruct (JSString.eqb [c] (js ".")) eqn:H; [| reflexivity].
      apply eqb_eq in H. injection H as ->. discriminate. }
    rewrite Heq. cbn [andb negb]. rewrite andb_true_r.
    destruct (JSString.eqb (current st) (js "0")) eqn:Hzero.
    + apply eqb_eq in Hzero.
      unfold backspace. cbn [consumedResult current refreshDisplay setCurrent]. rewrite Hflag.
      cbn [List.length Nat.leb]. unfold refreshDisplay, setCurrent. cbn. now rewrite Hzero.
    + unfold backspace. cbn [consumedResult current refreshDisplay setCurrent]. rewrite Hflag.
      rewrite Hlong, dropLast_snoc. unfold refreshDisplay, setCurrent. reflexivity.
Qed.

Lemma backspace_appendDigit_witness :
  backspace (appendDigit (js "7") (appendDigit (js "4") initial))
  = refreshDisplay (appendDigit (js "4") initial).
Proof.
  apply (backspace_appendDigit (js "7") (appendDigit (js "4") initial)).
  - reflexivity.
  - discriminate.
  - apply isDigitInput_digit. reflexivity.
  - discriminate.
Defined.

Lemma backspace_current_length (st : calculator) :
  current (backspace st) = js "0"
  \/ ((1 < List.length (current st))%nat
      /\ List.length (current (backspace st)) = pred (List.length (current st))).
Proof.
  unfold backspace. destruct (consumedResult st); [now left |].
  cbn [current refreshDisplay setCurrent].
  destruct (_ <=? 1)%nat eqn:Hlen; [now left |]. right.
  apply Nat.leb_gt in Hlen. split; [exact Hlen |].
  unfold dropLast. destruct (current st) as [| c s] using rev_ind; [simpl in Hlen; lia |].
  rewrite removelast_last, length_app. simpl. lia.
Qed.

Lemma backspace_zero (st : calculator) :
  current st = js "0" -> current (backspace st) = js "0".
Proof.
  intros H. unfold backspace. destruct (consumedResult st); [reflexivity |].
  cbn [current refreshDisplay setCurrent]. now rewrite H.
Qed.

Lemma backspace_flag (st : calculator) : consumedResult (backspace st) = false.
Proof.
  unfold backspace. destruct (consumedResult st) eqn:H; [reflexivity | exact H].
Qed.

Lemma backspace_history (st : calculator) : history (backspace st) = history st.
Proof. unfold backspace. now destruct (consumedResult st). Qed.

Lemma backspaces_zero (n : nat) (st : calculator) :
  current st = js "0" -> current (Nat.iter n backspace st) = js "0".
Proof.
  revert st. induction n as [| n IH]; intros st H; [exact H |].
  rewrite Nat.iter_succ_r. apply IH. now apply backspace_zero.
Qed.

Lemma backspaces_enough (n : nat) (st : calculator) :
  (List.length (current st) <= S n)%nat ->
  current (Nat.iter (S n) backspace st) = js "0".
Proof.
  revert st. induction n as [| n IH]; intros st Hlen.
  - cbn [Nat.iter nat_rect]. destruct (backspace_current_length st) as [H | [H _]];
      [exact H | lia].
  - rewrite Nat.iter_succ_r.
    destruct (backspace_current_length st) as [H | [H1 H2]].
    + now apply backspaces_zero.
    + apply IH. lia.
Qed.

(** X7: pressing backspace as many times as [current] has characters (or
    more) always ends with [current = "0"], with [history] untouched and
    [consumedResult] false; [current = "0"] is where backspace stops. *)
Theorem backspace_down_to_zero (n : nat) (st : calculator) :
  (List.length (current st) <= n)%nat -> (0 < n)%nat ->
  current (Nat.iter n backspace st) = js "0"
  /\ history (Nat.iter n backspace st) = history st
  /\ consumedResult (Nat.iter n backspace st) = false
  /\ current (backspace (Nat.iter n backspace st)) = js "0".
Proof.
  intros Hlen Hn. destruct n as [| n]; [lia |].
  pose proof (backspaces_enough n st Hlen) as Hzero.
  split; [exact Hzero |]. split; [| split].
  - clear. generalize (S n). intros k. revert st.
    induction k as [| k IH]; intros st; [reflexivity |].
    rewrite Nat.iter_succ_r, IH. apply backspace_history.
  - cbn [Nat.iter nat_rect]. apply backspace_flag.
  - now apply backspace_zero.
Qed.

Lemma backspace_down_to_zero_witness :
  let st := appendDigits [js "1"; js "2"; js "."; js "5"] initial in
  current (Nat.iter 4 backspace st) = js "0"
  /\ history (Nat.iter 4 backspace st) = history st
  /\ consumedResult (Nat.iter 4 backspace st) = false
  /\ current (backspace (Nat.iter 4 backspace st)) = js "0".
Proof.
  intros st. apply (backspace_down_to_zero 4 st).
  - vm_compute. lia.
  - lia.
Defined.

(** ** The display *)

Lemma appendDigit_cases (d : jsstring) (st : calculator) :
  appendDigit d st = st \/ exists c, appendDigit d st = refreshDisplay (setCurrent c (setConsumedResult false st)).
Proof.
  unfold appendDigit. destruct (consumedResult st) eqn:Hflag.
  - right. now eexists.
  - assert (Hsame : setConsumedResult false st = st)
      by (destruct st; cbn in *; now subst).
    rewrite Hsame.
    destruct (_ && negb _); [right; now eexists |].
    destruct (_ && includes _ _); [now left | right; now eexists].
Qed.

Lemma step_display (a : action) (st st' : calculator) :
  step a st = Some st' ->
  historyEl st = history st ->
  historyEl st' = history st'
  /\ (currentEl st' = current st'
      \/ (currentEl st' = js "Err" /\ (0 < errorTimers st')%nat)
      \/ (st' = st)).
Proof.
  intros Hstep Hh. destruct a; cbn [step] in Hstep.
  - injection Hstep as <-. destruct (appendDigit_cases d st) as [-> | [c ->]]; auto.
  - injection Hstep as <-. unfold applyOperator.
    destruct (consumedResult st); [auto |]. destruct (endsWithOperator _); auto.
  - apply doPercent_cases in Hstep. destruct Hstep as [-> | [x ->]]; [| auto].
    split; [exact Hh |]. right. left. split; [reflexivity | simpl; lia].
  - injection Hstep as <-. unfold backspace. destruct (consumedResult st); auto.
  - injection Hstep as <-. auto.
  - apply evaluateExpression_cases in Hstep. destruct Hstep as [-> | [-> | [y ->]]]; auto.
    split; [exact Hh |]. right. left. split; [reflexivity | simpl; lia].
  - apply errorTimeout_cases in Hstep. destruct Hstep as [n [_ ->]]. auto.
Qed.

Lemma reachable_shown (st : calculator) :
  reachable st ->
  historyEl st = history st
  /\ (currentEl st = current st
      \/ (currentEl st = js "Err" /\ (0 < errorTimers st)%nat)).
Proof.
  induction 1 as [| a st st' _ [IHh IHc] _ Hstep]; [split; [reflexivity | now left] |].
  destruct (step_display a st st' Hstep IHh) as [Hh [Hc | [Hc | ->]]]; auto.
Qed.

(** X8: in every reachable state the history line shows [history], and the
    main line shows [current], unless it shows "Err" while a timer of
    [showError] is still pending. *)
Theorem reachable_display (st : calculator) :
  reachable st ->
  historyEl st = history st
  /\ (currentEl st = current st
      \/ (currentEl st = js "Err" /\ (0 < errorTimers st)%nat)).
Proof. apply reachable_shown. Qed.

Lemma reachable_display_witness :
  let st := showError (appendDigit (js "0") (applyOperator (js "/") (appendDigit (js "5") initial))) in
  historyEl st = history st
  /\ (currentEl st = current st
      \/ (currentEl st = js "Err" /\ (0 < errorTimers st)%nat)).
Proof.
  intros st. apply (reachable_display st).
  apply (reachable_run [Digit (js "5"); Operator (js "/"); Digit (js "0"); Equals] initial).
  - constructor.
  - valid_actions.
  - vm_compute. reflexivity.
Defined.

(** ** The error timer *)

Lemma step_timers (a : action) (st st' : calculator) :
  a <> ErrorTimeout -> step a st = Some st' -> (errorTimers st <= errorTimers st')%nat.
Proof.
  intros Ha Hstep. destruct a; cbn [step] in Hstep; [| | | | | | contradiction].
  - injection Hstep as <-. destruct (appendDigit_cases d st) as [-> | [c ->]]; simpl; lia.
  - injection Hstep as <-. unfold applyOperator.
    destruct (consumedResult st); [simpl; lia |]. destruct (endsWithOperator _); simpl; lia.
  - apply doPercent_cases in Hstep. destruct Hstep as [-> | [x ->]]; simpl; lia.
  - injection Hstep as <-. unfold backspace. destruct (consumedResult st); simpl; lia.
  - injection Hstep as <-. simpl. lia.
  - apply evaluateExpression_cases in Hstep.
    destruct Hstep as [-> | [-> | [y ->]]]; simpl; lia.
Qed.

Lemma run_timers (acts : list action) (st st' : calculator) :
  Forall (fun a => a <> ErrorTimeout) acts -> run acts st = Some st' ->
  (errorTimers st <= errorTimers st')%nat.
Proof.
  revert st. induction acts as [| a acts IH]; intros st Hacts; cbn [run].
  - intros H; injection H as <-. lia.
  - destruct (step a st) as [st1 |] eqn:Hstep; [| discriminate]. intros Hrun.
    inversion Hacts; subst.
    pose proof (step_timers a st st1 ltac:(assumption) Hstep).
    pose proof (IH st1 ltac:(assumption) Hrun). lia.
Qed.

(** X9: the reset scheduled by [showError] is not cancelled by anything.
    Whatever is done after an error before the timer runs (digits typed,
    operators, another evaluation), the timer then sets [current] back to
    "0" and shows it, keeping [history] and [consumedResult]. *)
Theorem showError_timer_wins (acts : list action) (st st1 : calculator) :
  Forall (fun a => a <> ErrorTimeout) acts ->
  run acts (showError st) = Some st1 ->
  exists st2, errorTimeout st1 = Some st2
    /\ current st2 = js "0" /\ currentEl st2 = js "0"
    /\ history st2 = history st1 /\ historyEl st2 = history st1
    /\ consumedResult st2 = consumedResult st1.
Proof.
  intros Hacts Hrun.
  pose proof (run_timers acts (showError st) st1 Hacts Hrun) as Hle.
  cbn [errorTimers showError] in Hle.
  unfold errorTimeout. destruct (errorTimers st1) as [| n]; [lia |].
  eexists. split; [reflexivity |]. repeat split.
Qed.

Lemma showError_timer_wins_witness :
  exists st2,
    errorTimeout (appendDigit (js "7") (showError initial)) = Some st2
    /\ current st2 = js "0" /\ currentEl st2 = js "0"
    /\ history st2 = history (appendDigit (js "7") (showError initial))
    /\ historyEl st2 = history (appendDigit (js "7") (showError initial))
    /\ consumedResult st2 = consumedResult (appendDigit (js "7") (showError initial)).
Proof.
  apply (showError_timer_wins [Digit (js "7")] initial).
  - repeat constructor. discriminate.
  - reflexivity.
Defined.

(** ** Evaluation after a result *)

Lemma evaluateBody_invalid_character (st : calculator) (c : N) :
  In c (history st ++ current st) ->
  allowedChar c = false -> isSpace c = false ->
  c <> 215%N -> c <> 247%N -> c <> 8722%N ->
  evaluateBody st = Some (Throws (Error "Invalid characters in expression")).
Proof.
  intros Hin Hbad Hspace H1 H2 H3.
  assert (Hnorm : In c (normalizeVisual (history st ++ current st))).
  { unfold normalizeVisual. apply (trim_keeps c _ Hspace).
    rewrite replaceAll_signs. apply in_map_iff. exists c. split; [| exact Hin].
    destruct (N.eqb_spec c 215); [contradiction |].
    destruct (N.eqb_spec c 247); [contradiction |].
    destruct (N.eqb_spec c 8722); [contradiction | reflexivity]. }
  unfold evaluateBody.
  destruct (normalizeVisual (history st ++ current st)) as [| x expr] eqn:Hexpr;
    [contradiction |].
  assert (Hthrow : safeEval (x :: expr)
                   = Some (Throws (Error "Invalid characters in expression"))).
  { apply (safeEval_invalid (x :: expr) c); [| exact Hbad].
    rewrite <- Hexpr, normalizeVisual_idempotent, Hexpr.
    unfold stripSpaces. apply filter_In. split; [exact Hnorm | now rewrite Hspace]. }
  now rewrite Hthrow.
Qed.

(** X10: a character outside the whitelist anywhere in [history] or
    [current] (other than white space and the three signs that are
    replaced) makes [evaluateExpression] fail with "Invalid characters":
    "Err" is shown and [current], [history], [consumedResult] stay. *)
Theorem evaluateExpression_invalid_character (st : calculator) (c : N) :
  In c (history st ++ current st) ->
  allowedChar c = false -> isSpace c = false ->
  c <> 215%N -> c <> 247%N -> c <> 8722%N ->
  evaluateBody st = Some (Throws (Error "Invalid characters in expression"))
  /\ evaluateExpression st = Some (showError st).
Proof.
  intros Hin Hbad Hspace H1 H2 H3.
  pose proof (evaluateBody_invalid_character st c Hin Hbad Hspace H1 H2 H3) as H.
  split; [exact H |]. unfold evaluateExpression. now rewrite H.
Qed.

Lemma evaluateExpression_invalid_character_witness :
  let st := setCurrent (js "1e-7") initial in
  evaluateBody st = Some (Throws (Error "Invalid characters in expression"))
  /\ evaluateExpression st = Some (showError st).
Proof.
  intros st. apply (evaluateExpression_invalid_character st (chr "e"));
    try reflexivity; try discriminate.
  simpl. auto.
Defined.

Lemma appendDigit_history (d : jsstring) (st : calculator) :
  history (appendDigit d st) = history st.
Proof. destruct (appendDigit_cases d st) as [-> | [c ->]]; reflexivity. Qed.

Lemma appendDigits_history (ds : list jsstring) (st : calculator) :
  history (appendDigits ds st) = history st.
Proof.
  unfold appendDigits. revert st. induction ds as [| d ds IH]; intros st; [reflexivity |].
  cbn [fold_left]. rewrite IH. apply appendDigit_history.
Qed.

Lemma applyOperator_flag (op : jsstring) (st : calculator) :
  consumedResult (applyOperator op st) = false.
Proof.
  unfold applyOperator. destruct (consumedResult st) eqn:H; [reflexivity |].
  destruct (endsWithOperator _); exact H.
Qed.

(** [consumedResult] is set only while [history] holds an evaluated
    expression and its " =". *)
Lemma reachable_consumedResult (st : calculator) :
  reachable st -> consumedResult st = true -> exists e, history st = (e ++ js " =")%list.
Proof.
  induction 1 as [| a st st' _ IH _ Hstep]; [discriminate |].
  destruct a; cbn [step] in Hstep.
  - injection Hstep as <-. destruct (appendDigit_cases d st) as [-> | [c ->]];
      [exact IH | simpl; discriminate].
  - injection Hstep as <-. rewrite applyOperator_flag. discriminate.
  - apply doPercent_cases in Hstep. destruct Hstep as [-> | [x ->]]; exact IH.
  - injection Hstep as <-. rewrite backspace_flag. discriminate.
  - injection Hstep as <-. simpl. discriminate.
  - apply evaluateExpression_cases in Hstep. destruct Hstep as [-> | [-> | [y ->]]];
      [exact IH | exact IH |].
    intros _. now eexists.
  - apply errorTimeout_cases in Hstep. destruct Hstep as [n [_ ->]]. exact IH.
Qed.

(** X11: once a result is shown ([consumedResult] true, in a reachable
    state), evaluating again fails and shows "Err"; so does evaluating
    after typing a new number, because the digits replace [current] but
    [history] keeps the old expression with its "=". *)
Theorem evaluateExpression_after_result (st : calculator) (ds : list jsstring) :
  reachable st -> consumedResult st = true ->
  history (appendDigits ds st) = history st
  /\ evaluateBody (appendDigits ds st)
     = Some (Throws (Error "Invalid characters in expression"))
  /\ evaluateExpression (appendDigits ds st) = Some (showError (appendDigits ds st)).
Proof.
  intros Hst Hflag. destruct (reachable_consumedResult st Hst Hflag) as [e He].
  pose proof (appendDigits_history ds st) as Hh.
  split; [exact Hh |].
  assert (H : evaluateBody (appendDigits ds st)
              = Some (Throws (Error "Invalid characters in expression"))).
  { apply (evaluateBody_invalid_character (appendDigits ds st) (chr "="));
      try reflexivity; try discriminate.
    rewrite Hh, He. apply in_or_app. left. apply in_or_app. right. simpl. auto. }
  split; [exact H |]. unfold evaluateExpression. now rewrite H.
Qed.

Lemma evaluateExpression_after_result_witness :
  let st := {| current := js "5"; history := js "2+3 ="; consumedResult := true;
               currentEl := js "5"; historyEl := js "2+3 ="; errorTimers := 0 |} in
  history (appendDigits [js "7"] st) = history st
  /\ evaluateBody (appendDigits [js "7"] st)
     = Some (Throws (Error "Invalid characters in expression"))
  /\ evaluateExpression (appendDigits [js "7"] st) = Some (showError (appendDigits [js "7"] st)).
Proof.
  intros st. apply (evaluateExpression_after_result st [js "7"]).
  - apply (reachable_run [Digit (js "2"); Operator (js "+"); Digit (js "3"); Equals] initial).
    + constructor.
    + valid_actions.
    + vm_compute. reflexivity.
  - reflexivity.
Defined.

(** X12: a failed evaluation fails again in the same way as long as the
    timer has not reset [current]: the error display changes neither
    [history] nor [current]. *)
Theorem evaluateExpression_error_again (st : calculator) (e : exception) :
  evaluateBody st = Some (Throws e) ->
  evaluateExpression st = Some (showError st)
  /\ evaluateBody (showError st) = Some (Throws e)
  /\ evaluateExpression (showError st) = Some (showError (showError st)).
Proof.
  intros H.
  assert (H' : evaluateBody (showError st) = Some (Throws e)).
  { unfold evaluateBody in *. cbn [history current showError].
    destruct (normalizeVisual (history st ++ current st)) as [| c expr]; [discriminate |].
    destruct (safeEval (c :: expr)) as [[result | x] |]; cbn [bind] in *;
      [| exact H | discriminate].
    destruct (isFinite (toNumber result)); cbn [negb] in *; [discriminate | exact H]. }
  unfold evaluateExpression. now rewrite H, H'.
Qed.

Lemma evaluateExpression_error_again_witness :
  let st := setCurrent (js "0") (setHistory (js "5/") initial) in
  evaluateExpression st = Some (showError st)
  /\ evaluateBody (showError st) = Some (Throws (Error "Result not finite"))
  /\ evaluateExpression (showError st) = Some (showError (showError st)).
Proof.
  intros st. apply (evaluateExpression_error_again st (Error "Result not finite")).
  vm_compute. reflexivity.
Defined.

(** ** Percent *)

(** X13: [doPercent] never touches [history] or [consumedResult].  It fails
    (showing "Err", [current] kept until the timer) exactly when [safeEval]
    throws; it has no test for a finite result, so a value that is not a
    number is put into [current] as "NaN". *)
Theorem doPercent_outcomes (st st' : calculator) :
  doPercent st = Some st' ->
  history st' = history st
  /\ consumedResult st' = consumedResult st
  /\ (forall e, safeEval (current st) = Some (Throws e) ->
      st' = showError st /\ e <> Error "Result not finite")
  /\ (forall val, safeEval (current st) = Some (Returns val) ->
      currentEl st' = current st' /\ errorTimers st' = errorTimers st
      /\ (val = VNotNumber -> current st' = js "NaN")).
Proof.
  intros H. unfold doPercent, percentBody in H.
  destruct (safeEval (current st)) as [[val | e] |] eqn:Hs; cbn [bind] in H; [| | discriminate].
  - injection H as <-. split; [reflexivity |]. split; [reflexivity |].
    split; [intros e He; discriminate |].
    intros val' Hval. injection Hval as <-. split; [reflexivity |]. split; [reflexivity |].
    intros ->. reflexivity.
  - injection H as <-. split; [reflexivity |]. split; [reflexivity |].
    split; [| intros val Hval; discriminate].
    intros e' He. injection He as <-. split; [reflexivity |].
    intros ->. unfold safeEval, safeEvalWith in Hs.
    destruct (hasInvalidChar _); [discriminate |].
    destruct (_ && _); [discriminate |].
    destruct (_ <? _)%nat; [discriminate |].
    now apply callFunction_no_Error in Hs.
Qed.

Lemma doPercent_outcomes_witness :
  let st := setCurrent (js "1e-7") initial in
  history (showError st) = history st
  /\ consumedResult (showError st) = consumedResult st
  /\ (forall e, safeEval (current st) = Some (Throws e) ->
      showError st = showError st /\ e <> Error "Result not finite")
  /\ (forall val, safeEval (current st) = Some (Returns val) ->
      currentEl (showError st) = current (showError st)
      /\ errorTimers (showError st) = errorTimers st
      /\ (val = VNotNumber -> current (showError st) = js "NaN")).
Proof.
  intros st. apply (doPercent_outcomes st (showError st)).
  vm_compute. reflexivity.
Defined.

(** ** Keys and buttons *)

Lemma keydown_char (c : N) :
  keydown [c]
  = if isDigit c || N.eqb c (chr ".") then Some (Digit [c])
    else if N.eqb c (chr "=") then Some Equals
    else if existsb (N.eqb c) (js "+-*/") then Some (Operator [c])
    else if N.eqb c (chr "%") then Some Percent
    else None.
Proof.
  destruct c as [| p]; [reflexivity |].
  do 8 (try (destruct p as [p | p |])); reflexivity.
Qed.

(** X14: a key named by a single character starts [appendDigit] when it is
    a digit or ".", [evaluateExpression] when it is "=", [applyOperator]
    when it is one of [+ - * /], [doPercent] when it is "%", and nothing
    otherwise. *)
Theorem keydown_single_character (c : N) (st : calculator) :
  onKeydown [c] st
  = if isDigit c || N.eqb c (chr ".") then Some (appendDigit [c] st)
    else if N.eqb c (chr "=") then evaluateExpression st
    else if existsb (N.eqb c) (js "+-*/") then Some (applyOperator [c] st)
    else if N.eqb c (chr "%") then doPercent st
    else Some st.
Proof.
  unfold onKeydown, dispatch. rewrite keydown_char.
  destruct (isDigit c || N.eqb c (chr ".")); [reflexivity |].
  destruct (N.eqb c (chr "=")); [reflexivity |].
  destruct (existsb (N.eqb c) (js "+-*/")); [reflexivity |].
  destruct (N.eqb c (chr "%")); reflexivity.
Qed.

Lemma eqb_head (x y : N) (a b : jsstring) :
  x <> y -> JSString.eqb (x :: a) (y :: b) = false.
Proof. intros H. cbn [JSString.eqb]. now destruct (N.eqb_spec x y). Qed.

(** X15: a key whose name starts with a character after "9" (a letter, as
    in "Shift", "Tab", "ArrowLeft", "a") does nothing, unless it is
    "Enter" (evaluate), "Backspace", "Escape" (clear) or "=". *)
Theorem keydown_named_key (c : N) (rest : jsstring) (st : calculator) :
  (57 < c)%N ->
  onKeydown (c :: rest) st
  = if JSString.eqb (c :: rest) (js "Enter") || JSString.eqb (c :: rest) (js "=")
    then evaluateExpression st
    else if JSString.eqb (c :: rest) (js "Backspace") then Some (backspace st)
    else if JSString.eqb (c :: rest) (js "Escape") then Some (clearAll st)
    else Some st.
Proof.
  intros Hc. unfold onKeydown, dispatch, keydown.
  assert (Hdigit : JSString.leb (c :: rest) (js "9") = false).
  { change (js "9") with [57%N]. cbn [JSString.leb].
    destruct (N.ltb_spec c 57); [lia |]. destruct (N.eqb_spec c 57); [lia | reflexivity]. }
  rewrite Hdigit, andb_false_r.
  change (js ".") with [46%N]. change (js "+") with [43%N]. change (js "-") with [45%N].
  change (js "*") with [42%N]. change (js "/") with [47%N]. change (js "%") with [37%N].
  cbn [existsb]. rewrite !eqb_head by lia. cbn [orb].
  destruct (JSString.eqb (c :: rest) (js "Enter") || JSString.eqb (c :: rest) (js "="));
    [reflexivity |].
  destruct (JSString.eqb (c :: rest) (js "Backspace")); [reflexivity |].
  destruct (JSString.eqb (c :: rest) (js "Escape")); reflexivity.
Qed.

Lemma keydown_named_key_witness :
  onKeydown (js "Shift") initial
  = if JSString.eqb (js "Shift") (js "Enter") || JSString.eqb (js "Shift") (js "=")
    then evaluateExpression initial
    else if JSString.eqb (js "Shift") (js "Backspace") then Some (backspace initial)
    else if JSString.eqb (js "Shift") (js "Escape") then Some (clearAll initial)
    else Some initial.
Proof.
  apply (keydown_named_key (chr "S") (js "hift") initial). reflexivity.
Defined.

(** ** Buttons *)

(** X16: the value of a button is always in normal form (normalising it
    again changes nothing, and none of the three signs is left), and the
    [trim] of the text fallback is subsumed by the normalisation: the
    value is [normalizeVisual] of the [data-value] attribute when that is
    present and not empty, and of the text otherwise. *)
Theorem resolveButtonValue_normal (btn : button) :
  normalizeVisual (resolveButtonValue btn) = resolveButtonValue btn
  /\ (forall c, In c (resolveButtonValue btn) -> c <> 215%N /\ c <> 247%N /\ c <> 8722%N)
  /\ resolveButtonValue btn
     = normalizeVisual
         match dataValue btn with
         | Some (c :: v) => c :: v
         | _ => textContent btn
         end.
Proof.
  split; [apply normalizeVisual_idempotent |]. split.
  - intros c Hc. unfold resolveButtonValue, normalizeVisual in Hc. apply In_trim in Hc.
    rewrite replaceAll_signs in Hc. apply in_map_iff in Hc. destruct Hc as [x [Hx _]].
    destruct (N.eqb_spec x 215); [subst c; repeat split; discriminate |].
    destruct (N.eqb_spec x 247); [subst c; repeat split; discriminate |].
    destruct (N.eqb_spec x 8722); [subst c; repeat split; discriminate |].
    subst c. repeat split; assumption.
  - unfold resolveButtonValue. destruct (dataValue btn) as [[| c v] |]; cbn [JSString.eqb].
    + apply normalizeVisual_trim.
    + reflexivity.
    + apply normalizeVisual_trim.
Qed.

(** X17: a button without a [data-action] among the four and without the
    class [num] or [op] acts only when its value is a single digit, "." or
    operator character, and then does what the key of that character does,
    except for "%": the key runs [doPercent], the button applies "%" as an
    operator. *)
Theorem click_fallback (btn : button) (a : action) (st : calculator) :
  actionIs (actionOf btn) (js "clear") = false ->
  actionIs (actionOf btn) (js "back") = false ->
  actionIs (actionOf btn) (js "percent") = false ->
  actionIs (actionOf btn) (js "equals") = false ->
  hasClass (js "num") btn = false -> hasClass (js "op") btn = false ->
  click btn = Some a ->
  exists c, resolveButtonValue btn = [c]
    /\ (isDigit c = true \/ c = chr "." \/ isOperator c = true)
    /\ (c <> chr "%" -> onClick btn st = onKeydown [c] st)
    /\ (c = chr "%" ->
        onClick btn st = Some (applyOperator (js "%") st)
        /\ onKeydown [c] st = doPercent st).
Proof.
  intros H1 H2 H3 H4 Hnum Hop Hclick.
  unfold onClick, onKeydown, dispatch. rewrite Hclick.
  unfold click in Hclick. rewrite H1, H2, H3, H4, Hnum, Hop in Hclick.
  destruct (resolveButtonValue btn) as [| c [| d v]] eqn:Hv; cbn [looksNumeric looksOperator] in Hclick;
    [discriminate | | discriminate].
  exists c. split; [reflexivity |]. rewrite keydown_char.
  destruct (isDigit c || N.eqb c (chr ".")) eqn:Hd.
  - injection Hclick as <-. apply orb_true_iff in Hd.
    split; [destruct Hd as [Hd | Hd]; [now left | right; left; now apply N.eqb_eq] |].
    split; [reflexivity |].
    intros ->. destruct Hd; discriminate.
  - destruct (isOperator c) eqn:Ho; [| discriminate]. injection Hclick as <-.
    split; [now (right; right) |].
    apply orb_false_iff in Hd. destruct Hd as [_ Hpoint].
    unfold isOperator in Ho. change (js "+-*/%") with [43; 45; 42; 47; 37]%N in Ho.
    change (js "+-*/") with [43; 45; 42; 47]%N. change (chr "=") with 61%N.
    change (chr "%") with 37%N. cbn [existsb] in *.
    destruct (N.eqb_spec c 61) as [-> | _]; [discriminate |].
    destruct (N.eqb_spec c 37) as [-> | Hp].
    + split; [intros H; contradiction | intros _; split; reflexivity].
    + rewrite !orb_false_r in Ho. rewrite orb_false_r. rewrite Ho.
      split; [reflexivity | intros H; contradiction].
Qed.

Lemma click_fallback_witness :
  let btn := {| dataAction := None; dataValue := Some (js "7");
                textContent := []; classList := [js "btn"] |} in
  exists c, resolveButtonValue btn = [c]
    /\ (isDigit c = true \/ c = chr "." \/ isOperator c = true)
    /\ (c <> chr "%" -> onClick btn initial = onKeydown [c] initial)
    /\ (c = chr "%" ->
        onClick btn initial = Some (applyOperator (js "%") initial)
        /\ onKeydown [c] initial = doPercent initial).
Proof.
  intros btn. apply (click_fallback btn (Digit (js "7")) initial); reflexivity.
Defined.

(** ** The pending timers and the history line *)

Lemma timers_drain (n : nat) (st : calculator) :
  errorTimers st = S n ->
  exists st', run (repeat ErrorTimeout (S n)) st = Some st'
    /\ errorTimers st' = 0%nat /\ current st' = js "0" /\ currentEl st' = js "0"
    /\ history st' = history st /\ historyEl st' = history st
    /\ consumedResult st' = consumedResult st.
Proof.
  revert st. induction n as [| n IH]; intros st Hn.
  - cbn [repeat run step]. unfold errorTimeout. rewrite Hn.
    eexists. split; [reflexivity |]. repeat split.
  - change (repeat ErrorTimeout (S (S n))) with (ErrorTimeout :: repeat ErrorTimeout (S n)).
    cbn [run step]. unfold errorTimeout at 1. rewrite Hn.
    match goal with
    | |- context [run _ ?s] => destruct (IH s eq_refl) as [st' (H1 & H2 & H3 & H4 & H5 & H6 & H7)]
    end.
    exists st'. split; [exact H1 |]. repeat split; assumption.
Qed.

(** X18: the "Err" display is transient.  From every reachable state, once
    the pending timers of [showError] have all run, none is left and the
    main line shows [current] again, with [history] and [consumedResult]
    as they were. *)
Theorem reachable_timers_drain (st : calculator) :
  reachable st ->
  exists st', run (repeat ErrorTimeout (errorTimers st)) st = Some st'
    /\ errorTimers st' = 0%nat
    /\ currentEl st' = current st' /\ historyEl st' = history st'
    /\ history st' = history st /\ consumedResult st' = consumedResult st.
Proof.
  intros Hst. destruct (reachable_shown st Hst) as [Hh Hc].
  destruct (errorTimers st) as [| n] eqn:Hn.
  - exists st. split; [reflexivity |]. split; [exact Hn |].
    split; [destruct Hc as [Hc | [_ Hc]]; [exact Hc | lia] |]. repeat split. exact Hh.
  - destruct (timers_drain n st Hn) as [st' (H1 & H2 & H3 & H4 & H5 & H6 & H7)].
    exists st'. split; [exact H1 |]. split; [exact H2 |].
    split; [now rewrite H3, H4 |]. split; [now rewrite H5, H6 |]. split; assumption.
Qed.

Lemma reachable_timers_drain_witness :
  let st := showError (appendDigit (js "0") (applyOperator (js "/") (appendDigit (js "5") initial))) in
  exists st', run (repeat ErrorTimeout (errorTimers st)) st = Some st'
    /\ errorTimers st' = 0%nat
    /\ currentEl st' = current st' /\ historyEl st' = history st'
    /\ history st' = history st /\ consumedResult st' = consumedResult st.
Proof.
  intros st. apply (reachable_timers_drain st).
  apply (reachable_run [Digit (js "5"); Operator (js "/"); Digit (js "0"); Equals] initial).
  - constructor.
  - valid_actions.
  - vm_compute. reflexivity.
Defined.

Lemma applyOperator_history (op : jsstring) (st : calculator) :
  exists h, history (applyOperator op st) = (h ++ op)%list.
Proof.
  unfold applyOperator. destruct (consumedResult st); [now eexists |].
  destruct (endsWithOperator _); cbn [history refreshDisplay setCurrent setHistory];
    [now eexists |].
  exists (history st ++ current st)%list. now rewrite app_assoc.
Qed.

(** X19: in every reachable state [history] is empty, or ends with an
    operator character (an expression waiting for its next operand), or
    ends with " =" (an evaluated expression); and it ends with " ="
    whenever [consumedResult] is true. *)
Theorem reachable_history_shape (st : calculator) :
  reachable st ->
  (history st = [] \/ endsWithOperator (history st) = true
   \/ exists e, history st = (e ++ js " =")%list)
  /\ (consumedResult st = true -> exists e, history st = (e ++ js " =")%list).
Proof.
  intros Hst. split; [| now apply reachable_consumedResult].
  induction Hst as [| a st st' _ IH Hv Hstep]; [now left |].
  destruct a; cbn [step validAction] in *.
  - injection Hstep as <-. now rewrite appendDigit_history.
  - injection Hstep as <-. right. left.
    destruct (isOperatorInput_char op Hv) as [c [-> Hc]].
    destruct (applyOperator_history [c] st) as [h ->]. now apply endsWithOperator_snoc.
  - apply doPercent_cases in Hstep. destruct Hstep as [-> | [x ->]]; exact IH.
  - injection Hstep as <-. now rewrite backspace_history.
  - injection Hstep as <-. now left.
  - apply evaluateExpression_cases in Hstep. destruct Hstep as [-> | [-> | [y ->]]];
      [exact IH | exact IH |].
    right. right. now eexists.
  - apply errorTimeout_cases in Hstep. destruct Hstep as [n [_ ->]]. exact IH.
Qed.

Lemma reachable_history_shape_witness :
  let st := applyOperator (js "+") (appendDigit (js "2") initial) in
  (history st = [] \/ endsWithOperator (history st) = true
   \/ exists e, history st = (e ++ js " =")%list)
  /\ (consumedResult st = true -> exists e, history st = (e ++ js " =")%list).
Proof.
  intros st. apply (reachable_history_shape st).
  apply (reachable_run [Digit (js "2"); Operator (js "+")] initial).
  - constructor.
  - valid_actions.
  - reflexivity.
Defined.

(** ** A calculation with two operands *)


































